(** * The MuZero tree search of [src/algos/mu_zero/mu_mcts.py]

    A shallow embedding of the classes [Node], [RootParentNode] and [MCTS],
    and the properties of the search that the design document states.

    Conventions of the embedding.
    - Numbers.  The program computes with NumPy floating point values.  They
      are modelled as exact rationals extended with the three special values
      of IEEE arithmetic ([PInf], [NInf], [NaN]); rounding, overflow and the
      sign of zero are not modelled.  Finite results are kept in lowest
      terms, so that equal numbers are equal terms.  A visit count is an
      entry of a float32 array: adding 1 to it is exact as long as the
      count is an integer below 2^24, and what is stated of the value of a
      count is stated below that bound.
    - Exceptions.  A Python call either returns or raises; a method is a
      function into [result].  A method of the controller also threads the
      controller, and the mutations made before an exception are kept.
    - Objects.  The controller owns every node through [state_node_dict], and
      each node object is bound to one key; a node that is mutated in place
      is written back under its key. *)

From Stdlib Require Import ZArith QArith Qreduction Qpower Lia List.
From stdpp Require Import base option list gmap strings.

Local Open Scope Z_scope.

(** ** Numbers *)

Module Num.

Inductive npfloat : Type :=
| Fin (q : Q)
| PInf
| NInf
| NaN.

Definition fin (q : Q) : npfloat := Fin (Qred q).

Definition of_Z (z : Z) : npfloat := Fin (inject_Z z).

Definition zero : npfloat := of_Z 0.
Definition one : npfloat := of_Z 1.

Definition is_nan (x : npfloat) : bool :=
  match x with NaN => true | _ => false end.

Definition is_fin (x : npfloat) : bool :=
  match x with Fin _ => true | _ => false end.

(** Sign of a rational: [Lt], [Eq] or [Gt] as it is below, at or above 0. *)
Definition Qsign (q : Q) : comparison := (q ?= 0)%Q.

Definition fopp (x : npfloat) : npfloat :=
  match x with
  | Fin q => fin (- q)
  | PInf => NInf
  | NInf => PInf
  | NaN => NaN
  end.

Definition fadd (x y : npfloat) : npfloat :=
  match x, y with
  | NaN, _ | _, NaN => NaN
  | Fin a, Fin b => fin (a + b)
  | PInf, NInf | NInf, PInf => NaN
  | PInf, _ | _, PInf => PInf
  | NInf, _ | _, NInf => NInf
  end.

Definition fsub (x y : npfloat) : npfloat := fadd x (fopp y).

(** An infinity of the sign [pos] scaled by a factor of sign [c]. *)
Definition inf_scaled (pos : bool) (c : comparison) : npfloat :=
  match c with
  | Eq => NaN
  | Gt => if pos then PInf else NInf
  | Lt => if pos then NInf else PInf
  end.

Definition fmul (x y : npfloat) : npfloat :=
  match x, y with
  | NaN, _ | _, NaN => NaN
  | Fin a, Fin b => fin (a * b)
  | Fin a, PInf | PInf, Fin a => inf_scaled true (Qsign a)
  | Fin a, NInf | NInf, Fin a => inf_scaled false (Qsign a)
  | PInf, PInf | NInf, NInf => PInf
  | PInf, NInf | NInf, PInf => NInf
  end.

(** Division as NumPy does it: a division by zero does not raise, it gives
    an infinity, or [NaN] for 0/0 (the zero divisor counts as positive). *)
Definition fdiv (x y : npfloat) : npfloat :=
  match x, y with
  | NaN, _ | _, NaN => NaN
  | Fin a, Fin b =>
      match Qsign b with
      | Eq => inf_scaled true (Qsign a)
      | _ => fin (a / b)
      end
  | Fin _, _ => zero
  | PInf, Fin b => match Qsign b with Lt => NInf | _ => PInf end
  | NInf, Fin b => match Qsign b with Lt => PInf | _ => NInf end
  | _, _ => NaN
  end.

(** [x ** n] for a natural exponent, by repeated multiplication from 1. *)
Fixpoint fpow_nat (x : npfloat) (n : nat) : npfloat :=
  match n with
  | O => one
  | S n' => fmul x (fpow_nat x n')
  end.

(** [np.power] of a float by an integer exponent. *)
Definition fpow (x : npfloat) (e : Z) : npfloat :=
  if e <? 0 then fdiv one (fpow_nat x (Z.to_nat (- e)))
  else fpow_nat x (Z.to_nat e).

(** The comparisons of IEEE arithmetic: every comparison with [NaN] is
    false. *)
Definition fle (x y : npfloat) : bool :=
  match x, y with
  | NaN, _ | _, NaN => false
  | NInf, _ | _, PInf => true
  | Fin a, Fin b => if Qle_bool a b then true else false
  | _, _ => false
  end.

Definition flt (x y : npfloat) : bool :=
  match x, y with
  | NaN, _ | _, NaN => false
  | Fin a, Fin b => negb (Qle_bool b a)
  | PInf, _ | _, NInf => false
  | _, _ => true
  end.

(** [np.sum] of a one-dimensional array; the sum of no element is 0. *)
Definition fsum (l : list npfloat) : npfloat := fold_left fadd l zero.

End Num.
Export Num.

(** ** Exceptions and Python values *)

Inductive exn : Type :=
| AttributeError
| TypeError
| KeyError
| IndexError
| ValueError
| AssertionError.

Inductive result (A : Type) : Type :=
| Ok (a : A)
| Raise (e : exn).
Arguments Ok {A} a.
Arguments Raise {A} e.

#[global] Instance result_ret : MRet result := @Ok.
#[global] Instance result_bind : MBind result := fun A B f m =>
  match m with
  | Ok a => f a
  | Raise e => Raise e
  end.

Definition raises {A : Type} (r : result A) : Prop := exists e, r = Raise e.

(** A hyperparameter as the configuration dictionary holds it. *)
Inductive pyval : Type :=
| PInt (z : Z)
| PFloat (x : npfloat)
| PNone.

(** A number used in floating point arithmetic; [None] is no number. *)
Definition to_float (v : pyval) : result npfloat :=
  match v with
  | PInt z => Ok (of_Z z)
  | PFloat x => Ok x
  | PNone => Raise TypeError
  end.

(** [v > 1] *)
Definition py_gt_1 (v : pyval) : result bool :=
  match v with
  | PInt z => Ok (1 <? z)
  | PFloat x => Ok (flt one x)
  | PNone => Raise TypeError
  end.

(** [range(v)] accepts only an [int]; it then runs over the integers from 0
    up to [v], excluded. *)
Definition py_range (v : pyval) : result Z :=
  match v with
  | PInt z => Ok z
  | _ => Raise TypeError
  end.

(** ** Sequences *)

(** The position that index [i] denotes in a sequence of length [n]:
    a negative index counts from the end. *)
Definition py_index (n : nat) (i : Z) : option nat :=
  if (0 <=? i) && (i <? Z.of_nat n) then Some (Z.to_nat i)
  else if (- Z.of_nat n <=? i) && (i <? 0) then Some (Z.to_nat (i + Z.of_nat n))
  else None.

(** [l[i]] *)
Definition getitem {A : Type} (l : list A) (i : Z) : result A :=
  match py_index (length l) i with
  | Some p =>
      match l !! p with
      | Some x => Ok x
      | None => Raise IndexError
      end
  | None => Raise IndexError
  end.

(** [l[i] = v] *)
Definition setitem {A : Type} (l : list A) (i : Z) (v : A) : result (list A) :=
  match py_index (length l) i with
  | Some p => Ok (<[p := v]> l)
  | None => Raise IndexError
  end.

(** [l[start:]] *)
Definition slice_from {A : Type} (l : list A) (start : Z) : list A :=
  if start <? 0 then drop (Z.to_nat (Z.of_nat (length l) + start)) l
  else drop (Z.to_nat start) l.

(** [np.zeros([n], dtype=np.float32)] *)
Definition np_zeros (n : Z) : result (list npfloat) :=
  if n <? 0 then Raise ValueError else Ok (replicate (Z.to_nat n) zero).

(** An arithmetic operation on two one-dimensional arrays: element by
    element when the lengths agree, an array of one element is stretched,
    and other lengths do not broadcast. *)
Definition broadcast (f : npfloat -> npfloat -> npfloat)
    (xs ys : list npfloat) : result (list npfloat) :=
  if decide (length xs = length ys) then Ok (zip_with f xs ys)
  else match xs, ys with
       | [x], _ => Ok (map (f x) ys)
       | _, [y] => Ok (map (fun x => f x y) xs)
       | _, _ => Raise ValueError
       end.

(** The position of the first maximum after position [i], where [best] at
    position [bi] is the largest so far; a [NaN] counts as maximal and
    ends the scan. *)
Fixpoint argmax_from (best : npfloat) (bi i : nat) (l : list npfloat) : nat :=
  match l with
  | [] => bi
  | x :: l' =>
      if is_nan best then bi
      else if fle x best then argmax_from best bi (S i) l'
      else argmax_from x i (S i) l'
  end.

(** [np.argmax] of a one-dimensional array: the first occurrence of the
    maximum; the empty array has none. *)
Definition np_argmax (l : list npfloat) : result Z :=
  match l with
  | [] => Raise ValueError
  | x :: l' => Ok (Z.of_nat (argmax_from x 0 1 l'))
  end.

(** [np.dot] of two one-dimensional arrays; different lengths do not align. *)
Definition np_dot (xs ys : list npfloat) : result npfloat :=
  if decide (length xs = length ys) then Ok (fsum (zip_with fmul xs ys))
  else Raise ValueError.

(** ** The search tree *)

Section Search.

(** A state is an opaque hashable handle; an observation is opaque. *)
Context {State : Type} `{Countable State}.
Context {Obs : Type}.

(** [np.log] and [np.sqrt]: not rational, so left uninterpreted. *)
Variable np_log : npfloat -> npfloat.
Variable np_sqrt : npfloat -> npfloat.

(** *** class Node *)

(** An object of class [Node] or of its subclass [RootParentNode].  The
    attributes [reward] and [policy] exist only once a constructor has
    assigned them. *)
Record Node : Type := mkNode {
  q_values : list npfloat;
  visits : list npfloat;
  reward : option npfloat;
  state : State;
  policy : option (list npfloat)
}.

(** Reading an attribute that was never assigned. *)
Definition getattr {A : Type} (o : option A) : result A :=
  match o with
  | Some a => Ok a
  | None => Raise AttributeError
  end.

(** [Node.__init__] *)
Definition Node_init (st : State) (rw : npfloat) (pol : list npfloat)
    (action_size : Z) : result Node :=
  q ← np_zeros action_size;
  v ← np_zeros action_size;
  mret (mkNode q v (Some rw) st (Some pol)).

Definition number_visits (self : Node) (action : Z) : result npfloat :=
  getitem (visits self) action.

(** [self.visits[action] += 1]; on the float32 array the sum is exact for a
    whole count below 2^24, the range of the statements about counts. *)
Definition update_num_visit (self : Node) (action : Z) : result Node :=
  n ← getitem (visits self) action;
  v ← setitem (visits self) action (fadd n one);
  mret (mkNode (q_values self) v (reward self) (state self) (policy self)).

Definition get_total_visits (self : Node) : npfloat :=
  fsum (visits self).

Definition q_value (self : Node) (action : Z) : result npfloat :=
  getitem (q_values self) action.

Definition set_q_value (self : Node) (q_val : npfloat) (action : Z)
    : result Node :=
  q ← setitem (q_values self) action q_val;
  mret (mkNode q (visits self) (reward self) (state self) (policy self)).

Definition update (self : Node) (gain : npfloat) (action_index : Z)
    (min_q max_q : npfloat) : result Node :=
  n_a ← number_visits self action_index;
  q_old ← q_value self action_index;
  let q_val := fdiv (fadd (fmul n_a q_old) gain) (fadd n_a one) in
  let q_val := fdiv (fsub q_val min_q) (fsub max_q min_q) in
  self ← set_q_value self q_val action_index;
  update_num_visit self action_index.

Definition action_distribution (self : Node) : result (list npfloat) :=
  let total := fsum (visits self) in
  mret (map (fun v => fdiv v total) (visits self)).

(** The class defines no method [min_q] and no method [max_q]: looking
    either up on a node fails. *)
Definition min_q_method (self : Node) : result npfloat := Raise AttributeError.
Definition max_q_method (self : Node) : result npfloat := Raise AttributeError.

(** *** class RootParentNode *)

(** [RootParentNode.__init__] does not call the constructor of [Node] and
    assigns neither [reward] nor [policy]. *)
Definition RootParentNode (initial_state : State) (action_size : Z)
    : result Node :=
  q ← np_zeros action_size;
  v ← np_zeros action_size;
  mret (mkNode q v None initial_state None).

(** *** The model boundary *)

(** The learned model: three pure functions. *)
Record Model : Type := mkModel {
  representation_function : Obs -> State;
  dynamics_function : State -> Z -> npfloat * State;
  prediction_function : State -> list npfloat * npfloat
}.

(** *** class MCTS *)

(** The controller.  [dynamics_log] is not an attribute of the program: it
    records, latest first, the arguments of every call of the model's
    dynamics function, so that the calls can be counted. *)
Record MCTS : Type := mkMCTS {
  model : Model;
  k : pyval;
  c1 : pyval;
  c2 : pyval;
  gamma : pyval;
  action_space : Z;
  lookup_table : gmap (State * Z) (State * npfloat);
  state_node_dict : gmap State Node;
  dynamics_log : list (State * Z)
}.

(** [d[key]] on the configuration dictionary. *)
Definition dict_get (d : gmap string pyval) (key : string) : result pyval :=
  match d !! key with
  | Some v => Ok v
  | None => Raise KeyError
  end.

(** [MCTS.__init__] *)
Definition MCTS_init (mdl : Model) (mcts_param : gmap string pyval)
    (action_length : Z) : result MCTS :=
  k_ ← dict_get mcts_param "k_sims";
  c1_ ← dict_get mcts_param "c1";
  c2_ ← dict_get mcts_param "c2";
  gamma_ ← dict_get mcts_param "gamma";
  b ← py_gt_1 k_;
  if b : bool
  then mret (mkMCTS mdl k_ c1_ c2_ gamma_ action_length ∅ ∅ [])
  else Raise AssertionError.

Definition get_action (self : MCTS) (node : Node) : result Z :=
  let total_visits := get_total_visits node in
  c1_ ← to_float (c1 self);
  c2_ ← to_float (c2 self);
  let term :=
    fsub (fadd c1_ (np_log (fadd (fadd total_visits c2_) one))) (np_log c2_) in
  pol ← getattr (policy node);
  let num :=
    map (fun x => fmul x (np_sqrt total_visits))
        (map (fun p => fmul p term) pol) in
  bonus ← broadcast fdiv num (map (fadd one) (visits node));
  values ← broadcast fadd (q_values node) bonus;
  np_argmax values.

(** A method that mutates the controller: it returns the controller as the
    call leaves it, also when the call raises. *)
Definition M (A : Type) : Type := MCTS -> MCTS * result A.

#[local] Instance M_ret : MRet M := fun A a self => (self, Ok a).
#[local] Instance M_bind : MBind M := fun A B f m self =>
  match m self with
  | (self', Ok a) => f a self'
  | (self', Raise e) => (self', Raise e)
  end.

Definition lift {A : Type} (r : result A) : M A := fun self => (self, r).
Definition get_self : M MCTS := fun self => (self, Ok self).
Definition put_self (self' : MCTS) : M unit := fun _ => (self', Ok tt).

(** The call [m] on the controller [self] raises. *)
Definition raises_from {A : Type} (m : M A) (self : MCTS) : Prop :=
  exists self' e, m self = (self', Raise e).

Definition set_lookup_table (t : gmap (State * Z) (State * npfloat))
    (self : MCTS) : MCTS :=
  mkMCTS (model self) (k self) (c1 self) (c2 self) (gamma self)
    (action_space self) t (state_node_dict self) (dynamics_log self).

Definition set_state_node_dict (d : gmap State Node) (self : MCTS) : MCTS :=
  mkMCTS (model self) (k self) (c1 self) (c2 self) (gamma self)
    (action_space self) (lookup_table self) d (dynamics_log self).

(** A call of [self.model.dynamics_function], recorded in the log. *)
Definition call_dynamics (st : State) (action : Z) : M (npfloat * State) :=
  fun self =>
    (mkMCTS (model self) (k self) (c1 self) (c2 self) (gamma self)
       (action_space self) (lookup_table self) (state_node_dict self)
       ((st, action) :: dynamics_log self),
     Ok (dynamics_function (model self) st action)).

(** [MCTS.lookup]: the branch of a miss ends without a [return], so the
    call gives [None] there. *)
Definition lookup (st : State) (action : Z) : M (option (State * npfloat)) :=
  self ← get_self;
  match lookup_table self !! (st, action) with
  | Some hit => mret (Some hit)
  | None =>
      '(rw, new_state) ← call_dynamics st action;
      self ← get_self;
      _ ← put_self
            (set_lookup_table (<[(st, action) := (new_state, rw)]> (lookup_table self)) self);
      mret None
  end.

Definition state_to_node (st : State) (rw : npfloat) : M Node :=
  self ← get_self;
  match state_node_dict self !! st with
  | Some node => mret node
  | None =>
      let '(pol, _) := prediction_function (model self) st in
      new_node ← lift (Node_init st rw pol (action_space self));
      _ ← put_self
            (set_state_node_dict (<[st := new_node]> (state_node_dict self)) self);
      mret new_node
  end.

Definition store (st : State) (rw : npfloat) (pol : list npfloat) : M unit :=
  self ← get_self;
  new_node ← lift (Node_init st rw pol (action_space self));
  put_self (set_state_node_dict (<[st := new_node]> (state_node_dict self)) self).

Definition reset_nodes : M unit :=
  self ← get_self;
  put_self (set_state_node_dict ∅ (set_lookup_table ∅ self)).

(** [np.power(g, e)] of the scalar [g] by the Python integer [e]: integer
    arithmetic when [g] is an [int], which refuses a negative exponent. *)
Definition np_power_scalar (g : pyval) (e : Z) : result npfloat :=
  match g with
  | PInt z => if e <? 0 then Raise ValueError else Ok (of_Z (z ^ e))
  | PFloat x => Ok (fpow x e)
  | PNone => Raise TypeError
  end.

(** [MCTS.compute_gain].  A [gamma] that is [None] raises [TypeError] on the
    line of [discounts] or, for an empty [reward_step], on the next. *)
Definition compute_gain (self : MCTS) (rewards : list npfloat) (v_l : npfloat)
    (i l : Z) : result npfloat :=
  let reward_step := slice_from rewards (i + 1) in
  let exponents := seq 0 (length reward_step) in
  g ← to_float (gamma self);
  let discounts := map (fun e => fpow_nat (fmul g one) e) exponents in
  p ← np_power_scalar (gamma self) (l - i);
  d ← np_dot reward_step discounts;
  mret (fadd (fmul p v_l) d).

Definition get_root_policy (obs : Obs) : M (list npfloat) :=
  self ← get_self;
  let s0 := representation_function (model self) obs in
  root_node ← state_to_node s0 zero;
  lift (action_distribution root_node).

(** An element of the sequence of visited (state, action) pairs. [np.append]
    flattens the tuple that it is given, a state being a scalar to NumPy, so
    [simulation] collects states and actions as separate elements. *)
Inductive sa_item : Type :=
| SAPair (st : State) (action : Z)
| SAState (st : State)
| SAAction (action : Z).

(** [s, a = item] *)
Definition unpack_pair (item : sa_item) : result (State * Z) :=
  match item with
  | SAPair st a => Ok (st, a)
  | _ => Raise TypeError
  end.

(** [x, y = r] where [r] may be [None]. *)
Definition unpack_option {A : Type} (r : option A) : result A :=
  match r with
  | Some a => Ok a
  | None => Raise TypeError
  end.

(** [np.minimum] and [np.maximum] of two scalars; a [NaN] propagates. *)
Definition np_minimum (x y : npfloat) : npfloat :=
  if is_nan x || is_nan y then NaN else if fle x y then x else y.
Definition np_maximum (x y : npfloat) : npfloat :=
  if is_nan x || is_nan y then NaN else if fle y x then x else y.

(** One iteration of the loop of [backup], for the index [i]. *)
Definition backup_step (states : list sa_item) (rewards : list npfloat)
    (v_l : npfloat) (k_ : Z) (min_q max_q : npfloat) (i : Z) : M unit :=
  self ← get_self;
  g_i ← lift (compute_gain self rewards v_l i k_);
  item ← lift (getitem states (i - 1));
  '(s_i_1, a_i) ← lift (unpack_pair item);
  r ← lift (getitem rewards (i - 1));
  node ← state_to_node s_i_1 r;
  node' ← lift (update node g_i a_i min_q max_q);
  self ← get_self;
  put_self (set_state_node_dict (<[s_i_1 := node']> (state_node_dict self)) self).

(** A [for] loop over the list [indices]. *)
Fixpoint for_each (body : Z -> M unit) (indices : list Z) : M unit :=
  match indices with
  | [] => mret tt
  | i :: rest => _ ← body i; for_each body rest
  end.

(** [MCTS.backup]: [i] runs over [reversed(range(1, k + 1))]. *)
Definition backup (states : list sa_item) (rewards : list npfloat)
    (v_l : npfloat) (k_ : Z) (min_q max_q : npfloat) : M unit :=
  for_each (backup_step states rewards v_l k_ min_q max_q)
    (reverse (seqZ 1 k_)).

(** The local variables that the selection loop of [simulation] updates. *)
Record locals : Type := mkLocals {
  current_node : Node;
  s_i : State;
  state_action : list sa_item;
  rewards_ : list npfloat;
  min_q_ : npfloat;
  max_q_ : npfloat
}.

(** The body of the selection loop of [simulation]. *)
Definition selection_step (v : locals) : M locals :=
  self ← get_self;
  a_i ← lift (get_action self (current_node v));
  let state_action := state_action v ++ [SAState (s_i v); SAAction a_i] in
  r ← lookup (s_i v) a_i;
  '(s_i_prime, r_i) ← lift (unpack_option r);
  let rewards := rewards_ v ++ [r_i] in
  current_node ← state_to_node s_i_prime r_i;
  let s_i := s_i_prime in
  mn ← lift (min_q_method current_node);
  let min_q := np_minimum (min_q_ v) mn in
  mx ← lift (max_q_method current_node);
  let max_q := np_maximum (max_q_ v) mx in
  mret (mkLocals current_node s_i state_action rewards min_q max_q).

(** [n] iterations of the selection loop. *)
Fixpoint selection_loop (n : nat) (v : locals) : M locals :=
  match n with
  | O => mret v
  | S n' => v' ← selection_step v; selection_loop n' v'
  end.

(** [MCTS.simulation]; [k_arg] is [None] when the caller gives no [k]. *)
Definition simulation (obs : Obs) (k_arg : option Z) : M unit :=
  self ← get_self;
  let k_ := match k_arg with None => k self | Some z => PInt z end in
  let s0 := representation_function (model self) obs in
  root ← lift (RootParentNode s0 (action_space self));
  _ ← put_self (set_state_node_dict (<[s0 := root]> (state_node_dict self)) self);
  kz ← lift (py_range k_);
  v ← selection_loop (Z.to_nat kz) (mkLocals root s0 [] [] PInf NInf);
  self ← get_self;
  a_l ← lift (get_action self (current_node v));
  let state_action := state_action v ++ [SAState (s_i v); SAAction a_l] in
  '(r_l, s_l) ← call_dynamics (s_i v) a_l;
  self ← get_self;
  let '(p_l, v_l) := prediction_function (model self) s_l in
  let rewards := rewards_ v ++ [r_l] in
  _ ← store s_l r_l p_l;
  backup state_action rewards v_l kz (min_q_ v) (max_q_ v).

End Search.

(** ** Formulas of the design document *)

(** The float [x] is the finite number [q]. *)
Definition is_number (x : npfloat) (q : Q) : Prop :=
  exists q', x = Fin q' /\ (q' == q)%Q.

(** The sum of a list of whole numbers. *)
Definition Zsum (l : list Z) : Z := fold_right Z.add 0 l.

(** The sum of a list of rationals. *)
Definition Qsum (l : list Q) : Q := fold_right Qplus 0%Q l.

(** The gain at step [i] of a descent of [k] steps with a finite discount
    [g], leaf value [v] and rewards [rs] indexed from 0: the discounting of
    the rewards starts at exponent 0. *)
Definition Qgain (g : Q) (rs : list Q) (v : Q) (i k : Z) : Q :=
  (Qpower g (k - i) * v
   + Qsum (map (fun j => Qpower g (j - i - 1) * nth (Z.to_nat j) rs 0)
             (seqZ (i + 1) (k - i))))%Q.

(** The gain as the design document writes it: the reward of step [j] is
    discounted by [gamma^(j-i)].  [reward_at] reads the reward of a step. *)
Definition claimed_gain (g : npfloat) (reward_at : Z -> npfloat) (v_leaf : npfloat)
    (i k : Z) : npfloat :=
  fadd (fmul (fpow g (k - i)) v_leaf)
       (fsum (map (fun j => fmul (fpow g (j - i)) (reward_at j))
                (seqZ (i + 1) (k - i)))).


(** The Q-value that [update] stores: the running mean, rescaled. *)
Definition rescaled_mean (n_a q_old gain min_q max_q : npfloat) : npfloat :=
  fdiv (fsub (fdiv (fadd (fmul n_a q_old) gain) (fadd n_a one)) min_q)
       (fsub max_q min_q).

(** ** A small instance *)

Module Sample.

Definition half : npfloat := Fin (1 # 2).

(** A model on states that are numbers: every action moves to the next
    state with reward 1, the prior is uniform over two actions. *)
Definition toy_model : @Model nat unit :=
  mkModel (fun _ => 0%nat)
          (fun s _ => (one, S s))
          (fun _ => ([half; half], of_Z 4)).

Definition toy_param (g : pyval) : gmap string pyval :=
  {[ "k_sims" := PInt 2; "c1" := PFloat one; "c2" := PFloat one; "gamma" := g ]}.

(** The controller that [MCTS(toy_model, toy_param(0.5), 2)] constructs. *)
Definition toy_mcts : @MCTS nat _ _ unit :=
  mkMCTS toy_model (PInt 2) (PFloat one) (PFloat one) (PFloat half) 2 ∅ ∅ [].

(** The node that [Node(0, 0, [0.5, 0.5], 2)] constructs. *)
Definition fresh_node : @Node nat :=
  mkNode [zero; zero] [zero; zero] (Some zero) 0%nat (Some [half; half]).

(** A node after three simulations through it. *)
Definition used_node : @Node nat :=
  mkNode [half; zero] [of_Z 2; one] (Some zero) 0%nat (Some [half; half]).

(** A configuration whose [k_sims] is too small. *)
Definition small_k_param : gmap string pyval :=
  {[ "k_sims" := PInt 1; "c1" := PFloat one; "c2" := PFloat one;
     "gamma" := PFloat half ]}.

(** A controller whose node table holds [used_node] for state 0. *)
Definition visited_mcts : @MCTS nat _ _ unit :=
  mkMCTS toy_model (PInt 2) (PFloat one) (PFloat one) (PFloat half) 2
    ∅ {[ 0%nat := used_node ]} [].

(** A visited path of two (state, action) pairs. *)
Definition sample_path : list (@sa_item nat) := [SAPair 0%nat 0; SAPair 1%nat 1].

(** Stand-ins for the logarithm and the square root. *)
Definition toy_log (x : npfloat) : npfloat := x.
Definition toy_sqrt (x : npfloat) : npfloat := x.

End Sample.

(** ** Sequences of calls and invariants of the controller *)

Section Sequences.

Context {State : Type} `{Countable State} {Obs : Type}.

#[local] Existing Instance M_ret.
#[local] Existing Instance M_bind.

(** [update] called once for each gain of [gains], in this order, always
    for the same action and with the same bounds. *)
Fixpoint update_each (self : @Node State) (gains : list npfloat)
    (action_index : Z) (min_q max_q : npfloat) : result Node :=
  match gains with
  | [] => Ok self
  | g :: rest =>
      self' ← update self g action_index min_q max_q;
      update_each self' rest action_index min_q max_q
  end.

(** [lookup] called for each pair of [queries], in this order. *)
Fixpoint lookup_each (queries : list (State * Z)) : M (Obs := Obs) unit :=
  match queries with
  | [] => mret tt
  | (st, action) :: rest => _ ← lookup st action; lookup_each rest
  end.

(** The transition cache holds exactly the pairs for which the dynamics
    function was called, and none was called twice. *)
Definition log_matches_cache (self : @MCTS State _ _ Obs) : Prop :=
  NoDup (dynamics_log self) /\
  forall p, p ∈ dynamics_log self <-> is_Some (lookup_table self !! p).

(** Every cached transition is the one that the model gives. *)
Definition cache_sound (self : @MCTS State _ _ Obs) : Prop :=
  forall st action new_state rw,
    lookup_table self !! (st, action) = Some (new_state, rw) ->
    dynamics_function (model self) st action = (rw, new_state).

(** Every node of the node table is bound to its own state. *)
Definition keyed (self : @MCTS State _ _ Obs) : Prop :=
  forall st node, state_node_dict self !! st = Some node -> state node = st.

(** The first [n] elements of [states] are pairs whose state has a node
    with arrays of one length that the action of the pair indexes. *)
Definition path_ready (states : list (@sa_item State)) (n : nat)
    (self : @MCTS State _ _ Obs) : Prop :=
  forall i : nat, (i < n)%nat ->
    exists st action node,
      states !! i = Some (SAPair st action) /\
      state_node_dict self !! st = Some node /\
      length (q_values node) = length (visits node) /\
      0 <= action < Z.of_nat (length (visits node)).

(** The call [m] keeps the property [P] of the controller, whether it
    returns or raises. *)
Definition preserves {A : Type} (P : @MCTS State _ _ Obs -> Prop) (m : M A) : Prop :=
  forall self, P self -> P (m self).1.

End Sequences.

(** ** The model of [src/algos/amped/nomad_model.py] *)

Module Nomad.

Section Nomad.

(** Tensors, observations, actions and logits are opaque, and so is what
    the networks compute; a computation on tensors may raise. *)
Context {Tensor Obs Action Logits : Type}.

(** [self.representation(obs.float().permute(0, 3, 1, 2))] *)
Variable net_representation : Obs -> result Tensor.
(** [torch.argmax(policy_logits, dim=1).float()] *)
Variable net_argmax : Logits -> result Action.
(** [NomadDynamicsModel.encode] *)
Variable encode : list Tensor -> Action -> result Tensor.
(** [self.dynamic], [self.dynamic_head] and
    [self.reward_head(self.flatten(.))] *)
Variable net_dynamic : Tensor -> result Tensor.
Variable net_dynamic_head : Tensor -> result Tensor.
Variable net_reward_head : Tensor -> result Tensor.

(** The attributes of a [NomadModel] that its methods read and write. *)
Record NomadModel : Type := mkNomadModel {
  hidden : option Tensor;
  cache : list Tensor;
  order : Z
}.

(** What [NomadModel.__init__] leaves in these attributes. *)
Definition NomadModel_init (order_ : Z) : NomadModel :=
  mkNomadModel None [] order_.

(** [NomadDynamicsModel.forward]; a clone has the value of its tensor. *)
Definition forward (order_ : Z) (hiddens : list Tensor) (action : Action)
    (evolving : bool) : result (Tensor * Tensor) :=
  new_hiddens ←
    (if evolving then Ok hiddens
     else last ← getitem hiddens (-1);
          mret (replicate (Z.to_nat order_) last));
  input_tensor ← encode new_hiddens action;
  intermediate ← net_dynamic input_tensor;
  new_hidden ← net_dynamic_head intermediate;
  rw ← net_reward_head intermediate;
  mret (rw, new_hidden).

(** [NomadModel.dynamics_function] *)
Definition dynamics_function (self : NomadModel) (hiddens : list Tensor)
    (action : Action) (evolving : bool) : result (Tensor * Tensor) :=
  forward (order self) hiddens action evolving.

(** [NomadModel.reward_function]; its assertion compares [self.cache],
    which is always a list, with [None], and so never fails. *)
Definition reward_function (self : NomadModel) (policy_logits : Logits)
    : result Tensor :=
  actions ← net_argmax policy_logits;
  '(rw, _) ← dynamics_function self (cache self) actions false;
  mret rw.

(** [NomadModel.representation_function] *)
Definition representation_function (self : NomadModel) (obs : Obs)
    : NomadModel * result Tensor :=
  match net_representation obs with
  | Raise e => (self, Raise e)
  | Ok output =>
      let cache' :=
        match cache self with
        | [] => replicate (Z.to_nat (order self)) output
        | _ :: _ => drop 1 (cache self ++ [output])
        end in
      (mkNomadModel (Some output) cache' (order self), Ok output)
  end.

(** [representation_function] called for each observation of [obss], in
    this order, until one raises. *)
Fixpoint represent_each (self : NomadModel) (obss : list Obs)
    : NomadModel * result unit :=
  match obss with
  | [] => (self, Ok tt)
  | obs :: rest =>
      match representation_function self obs with
      | (self', Ok _) => represent_each self' rest
      | (self', Raise e) => (self', Raise e)
      end
  end.

End Nomad.

End Nomad.

(** ** Properties of the numbers and of the sequences *)

Section NumFacts.

Lemma fin_proper (a b : Q) : (a == b)%Q -> fin a = fin b.
Proof. intros E. unfold fin. f_equal. by apply Qred_complete. Qed.

Lemma Qsign_eq_iff (q : Q) : Qsign q = Eq <-> (q == 0)%Q.
Proof. unfold Qsign. symmetry. apply Qeq_alt. Qed.




Lemma py_index_valid (n : nat) (a : Z) :
  0 <= a < Z.of_nat n -> py_index n a = Some (Z.to_nat a).
Proof.
  intros Ha. unfold py_index.
  destruct (0 <=? a) eqn:E1; [|lia].
  destruct (a <? Z.of_nat n) eqn:E2; [done|lia].
Qed.

Lemma getitem_valid {A : Type} (l : list A) (a : Z) :
  0 <= a < Z.of_nat (length l) ->
  exists x, l !! Z.to_nat a = Some x /\ getitem l a = Ok x.
Proof.
  intros Ha. unfold getitem. rewrite py_index_valid by done.
  destruct (lookup_lt_is_Some_2 l (Z.to_nat a)) as [x Hx]; [lia|].
  exists x. by rewrite Hx.
Qed.

Lemma setitem_valid {A : Type} (l : list A) (a : Z) (v : A) :
  0 <= a < Z.of_nat (length l) ->
  setitem l a v = Ok (<[Z.to_nat a := v]> l).
Proof. intros Ha. unfold setitem. by rewrite py_index_valid. Qed.

End NumFacts.

(** ** Properties of [Node] *)

Section NodeFacts.

Context {State : Type}.
Implicit Types (n : @Node State) (a : Z) (gain min_q max_q : npfloat).

(** On a valid action [update] returns, and it rewrites one entry of each
    of the two arrays. *)
Lemma update_valid n gain a min_q max_q :
  length (q_values n) = length (visits n) ->
  0 <= a < Z.of_nat (length (visits n)) ->
  exists n_a q_old,
    visits n !! Z.to_nat a = Some n_a /\
    q_values n !! Z.to_nat a = Some q_old /\
    update n gain a min_q max_q
    = Ok (mkNode (<[Z.to_nat a := rescaled_mean n_a q_old gain min_q max_q]> (q_values n))
                 (<[Z.to_nat a := fadd n_a one]> (visits n))
                 (reward n) (state n) (policy n)).
Proof.
  intros Hlen Ha.
  destruct (getitem_valid (visits n) a Ha) as (n_a & Hv & Gv).
  destruct (getitem_valid (q_values n) a) as (q_old & Hq & Gq); [lia|].
  exists n_a, q_old. split; [done|]. split; [done|].
  unfold update, number_visits, q_value, set_q_value, update_num_visit.
  rewrite Gv, Gq. cbn.
  rewrite setitem_valid by lia. cbn.
  rewrite Gv. cbn.
  by rewrite setitem_valid by lia.
Qed.

(** [update] either raises before it has written anything or returns: the
    two reads at its start check the index against both arrays. *)
Lemma update_raises_or_returns n gain a min_q max_q :
  update n gain a min_q max_q = Raise IndexError \/
  exists n', update n gain a min_q max_q = Ok n'.
Proof.
  unfold update, number_visits, q_value, set_q_value, update_num_visit,
    getitem, setitem.
  destruct (py_index (length (visits n)) a) as [p|] eqn:Ep; cbn; [|by left].
  destruct (visits n !! p) as [n_a|] eqn:Ev; cbn; [|by left].
  destruct (py_index (length (q_values n)) a) as [p'|] eqn:Ep'; cbn; [|by left].
  destruct (q_values n !! p') as [q_old|]; cbn; [|by left].
  right. rewrite Ep. cbn. rewrite Ev. cbn. eauto.
Qed.

(** A whole number is in lowest terms. *)
Lemma Qred_inject_Z (z : Z) : Qred (inject_Z z) = inject_Z z.
Proof.
  unfold Qred, inject_Z.
  pose proof (Z.ggcd_gcd z 1) as Hg.
  pose proof (Z.ggcd_correct_divisors z 1) as Hd.
  destruct (Z.ggcd z 1) as [g [aa bb]]. cbn [fst] in Hg.
  rewrite Z.gcd_1_r in Hg. subst g. destruct Hd as [Ha Hb].
  rewrite Z.mul_1_l in Ha, Hb. by subst.
Qed.




End NodeFacts.




(** ** The visit distribution *)

Section Distribution.

Lemma fsum_Fin_from (l : list Q) (acc : Q) :
  exists x, fold_left fadd (map Fin l) (fin acc) = fin x /\ (x == acc + Qsum l)%Q.
Proof.
  revert acc. induction l as [|a l IH]; intros acc.
  - exists acc. split; [done|]. change (Qsum []) with 0%Q. ring.
  - cbn [map fold_left].
    replace (fadd (fin acc) (Fin a)) with (fin (Qred acc + a)) by done.
    destruct (IH (Qred acc + a)%Q) as (x & Hx & Ex).
    exists x. split; [done|].
    change (Qsum (a :: l)) with (a + Qsum l)%Q.
    rewrite Ex, Qred_correct. ring.
Qed.

Lemma fsum_Fin (l : list Q) : fsum (map Fin l) = fin (Qsum l).
Proof.
  destruct (fsum_Fin_from l 0) as (x & Hx & Ex).
  unfold fsum. change zero with (fin 0). rewrite Hx.
  apply fin_proper. rewrite Ex. ring.
Qed.

Lemma Qsum_map_div (l : list Q) (t : Q) :
  (Qsum (map (fun q => Qred (q / t)) l) == Qsum l / t)%Q.
Proof.
  induction l as [|a l IH].
  - change (0 == 0 / t)%Q. unfold Qdiv. ring.
  - change (Qred (a / t) + Qsum (map (fun q => Qred (q / t)) l)
            == (a + Qsum l) / t)%Q.
    rewrite IH, Qred_correct. unfold Qdiv. ring.
Qed.

Lemma Qsum_nonneg (l : list Q) :
  Forall (fun c => (0 <= c)%Q) l -> (0 <= Qsum l)%Q.
Proof.
  induction 1 as [|a l Ha _ IH]; [apply Qle_refl|].
  change (0 + 0 <= a + Qsum l)%Q.
  apply (Qplus_le_compat 0 a 0 (Qsum l)); assumption.
Qed.

Lemma Qsum_nonneg_zero (l : list Q) :
  Forall (fun c => (0 <= c)%Q) l -> (Qsum l == 0)%Q ->
  Forall (fun c => (c == 0)%Q) l.
Proof.
  induction 1 as [|a l Ha Hl IH]; intros E; constructor;
    change (a + Qsum l == 0)%Q in E.
  - pose proof (Qsum_nonneg l Hl) as Hs.
    apply Qle_antisym; [|done].
    rewrite <- E. rewrite <- (Qplus_0_r a) at 1.
    apply Qplus_le_compat; [apply Qle_refl|done].
  - apply IH. pose proof (Qsum_nonneg l Hl) as Hs.
    apply Qle_antisym; [|done].
    rewrite <- E. rewrite <- (Qplus_0_l (Qsum l)) at 1.
    apply Qplus_le_compat; [done|apply Qle_refl].
Qed.

Lemma fdiv_Fin_pos (q t : Q) :
  (0 < t)%Q -> fdiv (Fin q) (Fin t) = Fin (Qred (q / t)).
Proof.
  intros Ht. cbn. unfold Qsign.
  apply Qgt_alt in Ht. by rewrite Ht.
Qed.

Lemma fdiv_zero_zero (q t : Q) :
  (q == 0)%Q -> (t == 0)%Q -> fdiv (Fin q) (Fin t) = NaN.
Proof.
  intros Hq Ht. apply Qsign_eq_iff in Hq, Ht. cbn. by rewrite Ht, Hq.
Qed.

Context {State : Type}.

(** C7, as the program has it.  For a node whose visit counts are the
    numbers [counts], none negative, [action_distribution] returns a vector
    of the same length.  Whenever the total of the counts is above 0, the
    entry of each action is its visit count divided by the total, and the
    entries sum to 1.  When the total is 0 it does not fail: NumPy
    divides 0 by 0 and every entry is NaN. *)
Theorem action_distribution_normalized (n : @Node State) (counts : list Q) :
  visits n = map Fin counts ->
  Forall (fun c => (0 <= c)%Q) counts ->
  exists d,
    action_distribution n = Ok d /\
    length d = length counts /\
    ((0 < Qsum counts)%Q ->
     (forall (i : nat) c, counts !! i = Some c ->
        exists x, d !! i = Some x /\ is_number x (c / Qsum counts)) /\
     fsum d = one) /\
    ((Qsum counts == 0)%Q -> d = replicate (length counts) NaN).
Proof.
  intros Hv Hpos. unfold action_distribution. rewrite Hv, fsum_Fin.
  eexists. split; [reflexivity|].
  split; [by rewrite !length_map|].
  split.
  - intros Hsum.
    assert (Ht : (0 < Qred (Qsum counts))%Q) by by rewrite Qred_correct.
    rewrite map_map.
    erewrite map_ext; [|intros q; apply (fdiv_Fin_pos q _ Ht)].
    split.
    { intros i c Hc. rewrite list_lookup_fmap, Hc. eexists. split; [done|].
      eexists. split; [done|]. by rewrite !Qred_correct. }
    rewrite <- (map_map (fun q => Qred (q / Qred (Qsum counts))) Fin).
    rewrite fsum_Fin. change one with (fin 1). apply fin_proper.
    rewrite Qsum_map_div, Qred_correct.
    field. intros E. rewrite E in Hsum. by apply Qlt_irrefl in Hsum.
  - intros Hsum.
    pose proof (Qsum_nonneg_zero counts Hpos Hsum) as Hz.
    assert (Ht : (Qred (Qsum counts) == 0)%Q) by by rewrite Qred_correct.
    rewrite map_map. unfold fin.
    generalize dependent (Qred (Qsum counts)). intros t Ht.
    clear Hv Hpos Hsum.
    induction Hz as [|q l Hq _ IH]; [done|].
    cbn [map length replicate]. f_equal; [|exact IH].
    by apply fdiv_zero_zero.
Qed.

End Distribution.

Lemma action_distribution_normalized_witness :
  exists d,
    action_distribution Sample.used_node = Ok d /\
    length d = length [2%Q; 1%Q] /\
    ((0 < Qsum [2%Q; 1%Q])%Q ->
     (forall (i : nat) c, [2%Q; 1%Q] !! i = Some c ->
        exists x, d !! i = Some x /\ is_number x (c / Qsum [2%Q; 1%Q])) /\
     fsum d = one) /\
    ((Qsum [2%Q; 1%Q] == 0)%Q -> d = replicate (length [2%Q; 1%Q]) NaN).
Proof.
  apply (action_distribution_normalized Sample.used_node [2%Q; 1%Q]).
  - reflexivity.
  - repeat constructor; discriminate.
Defined.

(** C7 as stated fails: the node [Node(0, 0, [0.5, 0.5], 2)] has no visit,
    and [action_distribution] returns on it where the claim has it fail. *)
Lemma action_distribution_no_visit_returns :
  get_total_visits Sample.fresh_node = zero /\
  ~ raises (action_distribution Sample.fresh_node).
Proof.
  split; [reflexivity|].
  intros [e He]. vm_compute in He. discriminate He.
Qed.

(** ** Properties of the controller *)

Section ControllerFacts.

Context {State : Type} `{Countable State} {Obs : Type}.
Implicit Types (self : @MCTS State _ _ Obs) (s : State) (a : Z).

(** C8, as the program has it.  The constructor fails when [k_sims] is an
    integer that is at most 1 (the assertion) and when the configuration has
    no entry [gamma] (the dictionary lookup).  It does not look at the value
    of [gamma]: with the four entries present and [k_sims] above 1 it
    returns the controller, whatever [gamma] is, a negative number
    included. *)
Theorem MCTS_init_checks (mdl : @Model State Obs) (mcts_param : gmap string pyval)
    (action_length : Z) :
  ((exists z, mcts_param !! "k_sims" = Some (PInt z) /\ z <= 1) \/
   mcts_param !! "gamma" = None ->
   raises (MCTS_init mdl mcts_param action_length)) /\
  (forall z c1_ c2_ g,
     mcts_param !! "k_sims" = Some (PInt z) -> 1 < z ->
     mcts_param !! "c1" = Some c1_ ->
     mcts_param !! "c2" = Some c2_ ->
     mcts_param !! "gamma" = Some g ->
     MCTS_init mdl mcts_param action_length
     = Ok (mkMCTS mdl (PInt z) c1_ c2_ g action_length ∅ ∅ [])).
Proof.
  unfold MCTS_init, dict_get, raises. split.
  - intros Hbad.
    destruct (mcts_param !! "k_sims") as [kv|] eqn:Ek; cbn; [|eauto].
    destruct (mcts_param !! "c1") as [c1v|]; cbn; [|eauto].
    destruct (mcts_param !! "c2") as [c2v|]; cbn; [|eauto].
    destruct (mcts_param !! "gamma") as [gv|] eqn:Eg; cbn; [|eauto].
    destruct Hbad as [(z & Hz & Hle) | Hg]; [|discriminate Hg].
    injection Hz as ->. cbn.
    destruct (1 <? z) eqn:E; [lia|]. eauto.
  - intros z c1_ c2_ g -> Hz -> -> ->. cbn.
    destruct (1 <? z) eqn:E; [done|lia].
Qed.

(** The hit of [lookup]: the cached pair is returned, the model is not
    called and nothing changes. *)
Lemma lookup_hit self s a hit :
  lookup_table self !! (s, a) = Some hit ->
  lookup s a self = (self, Ok (Some hit)).
Proof.
  intros Hhit. unfold lookup, mbind, M_bind, get_self. cbn. by rewrite Hhit.
Qed.

(** C1 at a pair that the transition cache does not hold: [lookup] calls
    the dynamics function once and caches its result, and then returns
    [None], not the result. *)
Theorem lookup_miss_returns_None self s a :
  lookup_table self !! (s, a) = None ->
  exists self',
    lookup s a self = (self', Ok None) /\
    lookup_table self'
    = <[(s, a) := ((dynamics_function (model self) s a).2,
                   (dynamics_function (model self) s a).1)]> (lookup_table self) /\
    dynamics_log self' = (s, a) :: dynamics_log self /\
    state_node_dict self' = state_node_dict self.
Proof.
  intros Hmiss. unfold lookup, mbind, M_bind, get_self, call_dynamics. cbn.
  rewrite Hmiss. cbn.
  destruct (dynamics_function (model self) s a) as [rw new_state]. cbn.
  eexists. split; [reflexivity|]. by cbn.
Qed.

(** C9.  With an action space that is a size, [store] on a state that the
    node table holds returns, and the table then holds for that state the
    node that [Node(state, reward, policy, action_space)] constructs: all
    its visit counts and Q-values are 0, so the statistics of the node that
    was there are gone.  The other entries of the table stay. *)
Theorem store_replaces_node self s rw pol (old : @Node State) :
  state_node_dict self !! s = Some old ->
  0 <= action_space self ->
  exists self',
    store s rw pol self = (self', Ok tt) /\
    state_node_dict self' !! s
    = Some (mkNode (replicate (Z.to_nat (action_space self)) zero)
                   (replicate (Z.to_nat (action_space self)) zero)
                   (Some rw) s (Some pol)) /\
    (forall s', s' <> s -> state_node_dict self' !! s' = state_node_dict self !! s') /\
    lookup_table self' = lookup_table self.
Proof.
  intros _ Hsize.
  unfold store, mbind, M_bind, get_self, lift, Node_init, np_zeros. cbn.
  destruct (action_space self <? 0) eqn:E; [lia|]. cbn.
  eexists. split; [reflexivity|]. cbn.
  split; [apply lookup_insert_eq|].
  split; [|done].
  intros s' Hs'. by apply lookup_insert_ne.
Qed.

End ControllerFacts.

Lemma MCTS_init_checks_witness :
  raises (MCTS_init Sample.toy_model Sample.small_k_param 2) /\
  MCTS_init Sample.toy_model (Sample.toy_param (PFloat (Fin (-1)))) 2
  = Ok (mkMCTS Sample.toy_model (PInt 2) (PFloat one) (PFloat one)
          (PFloat (Fin (-1))) 2 ∅ ∅ []).
Proof.
  split.
  - apply (MCTS_init_checks Sample.toy_model Sample.small_k_param 2).
    left. exists 1. split; [reflexivity|lia].
  - apply (MCTS_init_checks Sample.toy_model
             (Sample.toy_param (PFloat (Fin (-1)))) 2);
      [reflexivity|lia|reflexivity..].
Defined.

(** C8 as stated fails: a configuration with [gamma = -1] constructs a
    controller. *)
Lemma MCTS_init_accepts_negative_gamma :
  ~ raises (MCTS_init Sample.toy_model (Sample.toy_param (PFloat (Fin (-1)))) 2).
Proof. intros [e He]. vm_compute in He. discriminate He. Qed.

Lemma lookup_miss_returns_None_witness :
  exists self',
    lookup 0%nat 0 Sample.toy_mcts = (self', Ok None) /\
    lookup_table self'
    = <[(0%nat, 0) := ((dynamics_function (model Sample.toy_mcts) 0%nat 0).2,
                       (dynamics_function (model Sample.toy_mcts) 0%nat 0).1)]>
        (lookup_table Sample.toy_mcts) /\
    dynamics_log self' = (0%nat, 0) :: dynamics_log Sample.toy_mcts /\
    state_node_dict self' = state_node_dict Sample.toy_mcts.
Proof.
  apply (lookup_miss_returns_None Sample.toy_mcts 0%nat 0).
  reflexivity.
Defined.

Lemma store_replaces_node_witness :
  exists self',
    store 0%nat one [Sample.half; Sample.half] Sample.visited_mcts = (self', Ok tt) /\
    state_node_dict self' !! 0%nat
    = Some (mkNode (replicate (Z.to_nat (action_space Sample.visited_mcts)) zero)
                   (replicate (Z.to_nat (action_space Sample.visited_mcts)) zero)
                   (Some one) 0%nat (Some [Sample.half; Sample.half])) /\
    (forall s', s' <> 0%nat ->
       state_node_dict self' !! s' = state_node_dict Sample.visited_mcts !! s') /\
    lookup_table self' = lookup_table Sample.visited_mcts.
Proof.
  apply (store_replaces_node Sample.visited_mcts 0%nat one
           [Sample.half; Sample.half] Sample.used_node).
  - reflexivity.
  - cbn. lia.
Defined.

(** ** [simulation] does not return *)

Section SimulationFacts.

Context {State : Type} `{Countable State} {Obs : Type}.
Variables np_log np_sqrt : npfloat -> npfloat.
Implicit Types (self : @MCTS State _ _ Obs) (node : @Node State).

#[local] Existing Instance M_bind.

Lemma bind_raises_l {A B : Type} (m : M A) (f : A -> M B) self :
  raises_from m self -> raises_from (m ≫= f) self.
Proof.
  intros (self' & e & Hm). exists self', e.
  unfold mbind, M_bind. by rewrite Hm.
Qed.

Lemma bind_raises_r {A B : Type} (m : M A) (f : A -> M B) self self' x :
  m self = (self', Ok x) -> raises_from (f x) self' -> raises_from (m ≫= f) self.
Proof.
  intros Hm (self'' & e & Hf). exists self'', e.
  unfold mbind, M_bind. by rewrite Hm.
Qed.

Lemma returns_or_raises {A : Type} (m : M A) self :
  (exists self' x, m self = (self', Ok x)) \/ raises_from m self.
Proof.
  unfold raises_from. destruct (m self) as [self' [x|e]]; eauto.
Qed.

(** A bind raises as soon as every continuation does. *)
Lemma bind_raises_any {A B : Type} (m : M A) (f : A -> M B) self :
  (forall x self', raises_from (f x) self') -> raises_from (m ≫= f) self.
Proof.
  intros Hf. destruct (returns_or_raises m self) as [(self' & x & Hm) | Hm].
  - eapply bind_raises_r; eauto.
  - by apply bind_raises_l.
Qed.

Lemma lift_raises {A : Type} (r : result A) self :
  raises r -> raises_from (lift r) self.
Proof. intros [e ->]. by exists self, e. Qed.

(** A node without the attribute [policy] has no action: [get_action]
    raises on it. *)
Lemma get_action_no_policy self node :
  policy node = None -> raises (get_action np_log np_sqrt self node).
Proof.
  intros Hp. unfold get_action, raises.
  destruct (to_float (c1 self)) as [x|e]; cbn; [|eauto].
  destruct (to_float (c2 self)) as [y|e]; cbn; [|eauto].
  rewrite Hp. cbn. eauto.
Qed.

Lemma RootParentNode_no_policy (s : State) (n : Z) node :
  RootParentNode s n = Ok node -> policy node = None.
Proof.
  unfold RootParentNode, np_zeros.
  destruct (n <? 0); cbn; [discriminate|]. by intros [= <-].
Qed.

(** No iteration of the selection loop completes: a transition that is not
    cached makes [lookup] give [None], which does not unpack, and a cached
    one leads to the call of [min_q], which no node has. *)
Lemma selection_step_raises (v : locals) self :
  raises_from (selection_step np_log np_sqrt v) self.
Proof.
  unfold selection_step.
  eapply bind_raises_r; [reflexivity|].
  apply bind_raises_any. intros a_i self1.
  destruct (returns_or_raises (lookup (s_i v) a_i) self1)
    as [(self2 & [hit|] & Hl) | Hl]; [| |by apply bind_raises_l].
  - eapply bind_raises_r; [exact Hl|].
    apply bind_raises_any. intros [s_i_prime r_i] self3.
    apply bind_raises_any. intros node self4.
    apply bind_raises_l, lift_raises. by exists AttributeError.
  - eapply bind_raises_r; [exact Hl|].
    apply bind_raises_l, lift_raises. by exists TypeError.
Qed.

Lemma selection_loop_raises (n : nat) (v : locals) self :
  n <> O -> raises_from (selection_loop np_log np_sqrt n v) self.
Proof.
  destruct n as [|n]; [done|]. intros _. cbn [selection_loop].
  apply bind_raises_l, selection_step_raises.
Qed.

(** C2 fails on every input: whatever the model, the controller, the
    observation and [k] are, [simulation] raises.  With no iteration the
    action of the root is asked for after the loop, and the root has no
    [policy]; with an iteration the loop raises. *)
Theorem simulation_raises self (obs : Obs) (k_arg : option Z) :
  raises_from (simulation np_log np_sqrt obs k_arg) self.
Proof.
  unfold simulation.
  eapply bind_raises_r; [reflexivity|].
  set (s0 := representation_function (model self) obs).
  destruct (RootParentNode s0 (action_space self)) as [root|e] eqn:Eroot;
    [|apply bind_raises_l, lift_raises; by exists e].
  eapply bind_raises_r; [reflexivity|].
  eapply bind_raises_r; [reflexivity|].
  apply bind_raises_any. intros kz self1.
  destruct (Z.to_nat kz) as [|n] eqn:Ek.
  - cbn [selection_loop].
    eapply bind_raises_r; [reflexivity|].
    eapply bind_raises_r; [reflexivity|].
    apply bind_raises_l, lift_raises. cbn [current_node].
    apply get_action_no_policy. by eapply RootParentNode_no_policy.
  - by apply bind_raises_l, selection_loop_raises.
Qed.

End SimulationFacts.

(** The first simulation on the sample controller fails on the root. *)
Lemma simulation_sample_attribute_error :
  (simulation Sample.toy_log Sample.toy_sqrt tt None Sample.toy_mcts).2
  = Raise AttributeError.
Proof. reflexivity. Qed.

(** ** The gain of the backup *)

Section GainScenario.

Context {State : Type} `{Countable State} {Obs : Type}.
Implicit Types (self : @MCTS State _ _ Obs).

(** C4, as the program has it.  With [gamma = 0.5], [v_l = 4.0] and [k = 2]
    the gain at step 2 is [0.5^0 * 4.0 = 4.0].  At step 1 the rewards that
    count are those from index 2 of the array on: the array [[1.0, 2.0]]
    has none, and the gain is [0.5^1 * 4.0 = 2.0]; an array of three
    rewards with 2.0 at index 2, as [simulation] builds for [k = 2], gives
    [0.5^1 * 4.0 + 2.0 * 0.5^0 = 4.0]. *)
Theorem compute_gain_scenario self :
  gamma self = PFloat (Fin (1 # 2)) ->
  compute_gain self [of_Z 1; of_Z 2] (of_Z 4) 2 2 = Ok (of_Z 4) /\
  compute_gain self [of_Z 1; of_Z 2] (of_Z 4) 1 2 = Ok (of_Z 2) /\
  (forall r0 r1,
     compute_gain self [r0; r1; of_Z 2] (of_Z 4) 2 2 = Ok (of_Z 4) /\
     compute_gain self [r0; r1; of_Z 2] (of_Z 4) 1 2 = Ok (of_Z 4)).
Proof.
  intros Hg. unfold compute_gain. rewrite Hg.
  split; [reflexivity|]. split; [reflexivity|].
  intros r0 r1. split; reflexivity.
Qed.

End GainScenario.

Lemma compute_gain_scenario_witness :
  compute_gain Sample.toy_mcts [of_Z 1; of_Z 2] (of_Z 4) 2 2 = Ok (of_Z 4) /\
  compute_gain Sample.toy_mcts [of_Z 1; of_Z 2] (of_Z 4) 1 2 = Ok (of_Z 2) /\
  (forall r0 r1,
     compute_gain Sample.toy_mcts [r0; r1; of_Z 2] (of_Z 4) 2 2 = Ok (of_Z 4) /\
     compute_gain Sample.toy_mcts [r0; r1; of_Z 2] (of_Z 4) 1 2 = Ok (of_Z 4)).
Proof.
  apply (compute_gain_scenario Sample.toy_mcts). reflexivity.
Defined.

(** C4 as stated fails: on the rewards [[1.0, 2.0]] the gain at step 1 is
    2.0, not 4.0. *)
Lemma compute_gain_scenario_step_1 :
  ~ (compute_gain Sample.toy_mcts [of_Z 1; of_Z 2] (of_Z 4) 2 2 = Ok (of_Z 4) /\
     compute_gain Sample.toy_mcts [of_Z 1; of_Z 2] (of_Z 4) 1 2 = Ok (of_Z 4)).
Proof. intros [_ H1]. vm_compute in H1. discriminate H1. Qed.

Section FiniteArithmetic.

Lemma is_number_proper (x : npfloat) (p q : Q) :
  (p == q)%Q -> is_number x p -> is_number x q.
Proof. intros E (p' & -> & E'). exists p'. split; [done|]. by rewrite E'. Qed.

Lemma Fin_number (q : Q) : is_number (Fin q) q.
Proof. by exists q. Qed.

Lemma fin_number (q : Q) : is_number (fin q) q.
Proof. exists (Qred q). split; [done|]. apply Qred_correct. Qed.

Lemma fadd_number (x y : npfloat) (p q : Q) :
  is_number x p -> is_number y q -> is_number (fadd x y) (p + q).
Proof.
  intros (p' & -> & Ep) (q' & -> & Eq).
  apply (is_number_proper _ (p' + q')%Q); [by rewrite Ep, Eq|].
  apply fin_number.
Qed.

Lemma fmul_number (x y : npfloat) (p q : Q) :
  is_number x p -> is_number y q -> is_number (fmul x y) (p * q).
Proof.
  intros (p' & -> & Ep) (q' & -> & Eq).
  apply (is_number_proper _ (p' * q')%Q); [by rewrite Ep, Eq|].
  apply fin_number.
Qed.

Lemma Qpower_succ (g : Q) (n : nat) :
  (g ^ Z.of_nat (S n) == g * g ^ Z.of_nat n)%Q.
Proof.
  rewrite Nat2Z.inj_succ, <- Z.add_1_l.
  rewrite Qpower_plus' by lia. by rewrite Qpower_1_r.
Qed.

Lemma fpow_nat_number (x : npfloat) (g : Q) (n : nat) :
  is_number x g -> is_number (fpow_nat x n) (g ^ Z.of_nat n).
Proof.
  intros Hx. induction n as [|n IH].
  - apply Fin_number.
  - apply (is_number_proper _ (g * g ^ Z.of_nat n)%Q);
      [symmetry; apply Qpower_succ|].
    cbn [fpow_nat]. by apply fmul_number.
Qed.

Lemma fpow_number (x : npfloat) (g : Q) (e : Z) :
  0 <= e -> is_number x g -> is_number (fpow x e) (g ^ e).
Proof.
  intros He Hx. unfold fpow. destruct (e <? 0) eqn:E; [lia|].
  rewrite <- (Z2Nat.id e) at 2 by done. by apply fpow_nat_number.
Qed.

Lemma Qsum_cons (a : Q) (l : list Q) : Qsum (a :: l) = (a + Qsum l)%Q.
Proof. reflexivity. Qed.

Lemma fold_fadd_number (xs : list npfloat) (qs : list Q) (acc : npfloat) (a : Q) :
  is_number acc a -> Forall2 is_number xs qs ->
  is_number (fold_left fadd xs acc) (a + Qsum qs).
Proof.
  intros Hacc Hxs. revert acc a Hacc.
  induction Hxs as [|x q xs qs Hx _ IH]; intros acc a Hacc.
  - apply (is_number_proper _ a); [|done].
    change (Qsum []) with 0%Q. ring.
  - cbn [fold_left]. rewrite Qsum_cons.
    apply (is_number_proper _ (a + q + Qsum qs)%Q); [ring|].
    apply IH. by apply fadd_number.
Qed.

Lemma fsum_number (xs : list npfloat) (qs : list Q) :
  Forall2 is_number xs qs -> is_number (fsum xs) (Qsum qs).
Proof.
  intros Hxs. apply (is_number_proper _ (0 + Qsum qs)%Q); [ring|].
  apply fold_fadd_number; [apply Fin_number|done].
Qed.

(** The products of rewards and discounts that [compute_gain] sums. *)
Lemma discounted_number (G : npfloat) (g : Q) (l : list Q) (s : nat) :
  is_number G g ->
  Forall2 is_number
    (zip_with fmul (map Fin l) (map (fpow_nat G) (seq s (length l))))
    (zip_with (fun r e => g ^ Z.of_nat e * r)%Q l (seq s (length l))).
Proof.
  intros HG. revert s. induction l as [|r l IH]; intros s; [constructor|].
  cbn [length seq map zip_with]. constructor; [|apply IH].
  apply (is_number_proper _ (r * g ^ Z.of_nat s)%Q); [ring|].
  apply fmul_number; [apply Fin_number|by apply fpow_nat_number].
Qed.

(** The rewards after index [i], each with its exponent, as a sum over the
    indices [i + 1], [i + 2], ... of the whole array. *)
Lemma discounted_by_index (g : Q) (rs : list Q) (i : Z) :
  0 <= i ->
  zip_with (fun r e => g ^ Z.of_nat e * r)%Q
    (drop (Z.to_nat (i + 1)) rs)
    (seq 0 (length (drop (Z.to_nat (i + 1)) rs)))
  = map (fun j => g ^ (j - i - 1) * nth (Z.to_nat j) rs 0)%Q
      (seqZ (i + 1) (Z.of_nat (length rs) - (i + 1))).
Proof.
  intros Hi. unfold seqZ. rewrite length_drop.
  replace (Z.to_nat (Z.of_nat (length rs) - (i + 1)))
    with (length rs - Z.to_nat (i + 1))%nat by lia.
  set (m := Z.to_nat (i + 1)). set (n := (length rs - m)%nat).
  apply list_eq. intros e.
  rewrite lookup_zip_with, lookup_drop, !list_lookup_fmap.
  destruct (decide (e < n)%nat) as [He|He].
  - rewrite lookup_seq_lt by done.
    destruct (lookup_lt_is_Some_2 rs (m + e)) as [r Hr]; [lia|].
    rewrite Hr. cbn. f_equal.
    replace (Z.of_nat e + (i + 1) - i - 1) with (Z.of_nat e) by lia.
    replace (Z.to_nat (Z.of_nat e + (i + 1))) with (m + e)%nat by lia.
    by rewrite (nth_lookup_Some _ _ _ _ Hr).
  - rewrite lookup_seq_ge by lia. cbn.
    by destruct (rs !! (m + e)%nat).
Qed.

End FiniteArithmetic.

Section BackupFacts.

Context {State : Type} `{Countable State} {Obs : Type}.
Implicit Types (self : @MCTS State _ _ Obs) (s : State).

(** [compute_gain] on finite numbers, for a rewards array of any length. *)
Lemma compute_gain_number self (g : Q) (rs : list Q) (v : Q) (i l : Z) :
  gamma self = PFloat (Fin g) ->
  0 <= i <= l ->
  exists x,
    compute_gain self (map Fin rs) (Fin v) i l = Ok x /\
    is_number x
      (g ^ (l - i) * v
       + Qsum (map (fun j => g ^ (j - i - 1) * nth (Z.to_nat j) rs 0)
                 (seqZ (i + 1) (Z.of_nat (length rs) - (i + 1)))))%Q.
Proof.
  intros Hg Hi. unfold compute_gain, slice_from.
  destruct (i + 1 <? 0) eqn:E; [lia|].
  rewrite Hg. cbn [to_float np_power_scalar mbind result_bind].
  unfold np_dot. rewrite skipn_map.
  destruct (decide _) as [_|Hne];
    [|by rewrite !length_map, length_seq in Hne].
  eexists. split; [reflexivity|].
  apply fadd_number.
  - apply fmul_number; [|apply Fin_number].
    apply fpow_number; [lia|apply Fin_number].
  - rewrite <- discounted_by_index by lia.
    apply fsum_number. rewrite length_map.
    apply discounted_number.
    apply (is_number_proper _ (g * 1)%Q); [ring|].
    apply fmul_number; apply Fin_number.
Qed.

(** [reversed(range(1, k + 1))] is [k], [k - 1], ..., [1]. *)
Lemma reversed_range (n : nat) :
  reverse (seqZ 1 (Z.of_nat n))
  = map (fun d : nat => Z.of_nat n - Z.of_nat d) (seq 0 n).
Proof.
  induction n as [|n IH]; [done|].
  rewrite seqZ_S, reverse_app, IH. cbn [reverse rev_append app seq map].
  f_equal; [lia|].
  rewrite <- seq_shift, map_map.
  apply map_ext. intros d. lia.
Qed.

(** A state that has a node: [state_to_node] returns it and the model is
    not asked. *)
Lemma state_to_node_hit self s (rw : npfloat) (node : @Node State) :
  state_node_dict self !! s = Some node ->
  state_to_node s rw self = (self, Ok node).
Proof.
  intros Hn. unfold state_to_node, mbind, M_bind, get_self. cbn. by rewrite Hn.
Qed.

(** One iteration of [backup] on a pair whose state has a node: the node is
    updated with the gain of the step, the action of the pair and the two
    bounds, and written back. *)
Lemma backup_step_updates self (states : list sa_item) (rewards : list npfloat)
    (v_l : npfloat) (k_ : Z) (min_q max_q : npfloat) (i : Z) s (a : Z)
    (node node' : @Node State) (g_i : npfloat) :
  1 <= i <= Z.of_nat (length rewards) ->
  states !! Z.to_nat (i - 1) = Some (SAPair s a) ->
  state_node_dict self !! s = Some node ->
  compute_gain self rewards v_l i k_ = Ok g_i ->
  update node g_i a min_q max_q = Ok node' ->
  backup_step states rewards v_l k_ min_q max_q i self
  = (set_state_node_dict (<[s := node']> (state_node_dict self)) self, Ok tt).
Proof.
  intros Hi Hs Hn Hg Hu.
  pose proof (lookup_lt_Some _ _ _ Hs) as Hlt.
  destruct (getitem_valid states (i - 1)) as (item & Hitem & Gitem); [lia|].
  rewrite Hs in Hitem. injection Hitem as <-.
  destruct (getitem_valid rewards (i - 1)) as (r & _ & Gr); [lia|].
  unfold backup_step, mbind, M_bind, get_self, lift, put_self.
  cbn. rewrite Hg, Gitem. cbn. rewrite Gr.
  rewrite (state_to_node_hit self s r node Hn). by rewrite Hu.
Qed.

(** C3, as the program has it.  For a finite discount [g], a finite leaf
    value [v] and the [k + 1] finite rewards [rs] of a descent (indexed from
    0), the gain of step [i] is
    [g^(k-i) * v + sum over j from i+1 to k of g^(j-i-1) * rs[j]]:
    the discounting of the rewards starts at exponent 0, not at 1.
    [backup] takes the steps [i = k, k-1, ..., 1] in this order, and the
    step [i] applies [update] at the node of the state of [states[i-1]],
    with the gain of [i], the action of [states[i-1]] and the two bounds. *)
Theorem backup_gain_and_update self (states : list sa_item) (g : Q)
    (rs : list Q) (v : Q) (k_ : Z) (min_q max_q : npfloat) :
  gamma self = PFloat (Fin g) ->
  0 <= k_ ->
  Z.of_nat (length rs) = k_ + 1 ->
  (forall i, 1 <= i <= k_ ->
     exists x, compute_gain self (map Fin rs) (Fin v) i k_ = Ok x /\
               is_number x (Qgain g rs v i k_)) /\
  backup states (map Fin rs) (Fin v) k_ min_q max_q self
  = for_each (backup_step states (map Fin rs) (Fin v) k_ min_q max_q)
      (map (fun d : nat => k_ - Z.of_nat d) (seq 0 (Z.to_nat k_))) self /\
  (forall i s a node node' g_i,
     1 <= i <= k_ ->
     states !! Z.to_nat (i - 1) = Some (SAPair s a) ->
     state_node_dict self !! s = Some node ->
     compute_gain self (map Fin rs) (Fin v) i k_ = Ok g_i ->
     update node g_i a min_q max_q = Ok node' ->
     backup_step states (map Fin rs) (Fin v) k_ min_q max_q i self
     = (set_state_node_dict (<[s := node']> (state_node_dict self)) self, Ok tt)).
Proof.
  intros Hg Hk Hlen. split; [|split].
  - intros i Hi.
    destruct (compute_gain_number self g rs v i k_ Hg) as (x & Hx & Nx); [lia|].
    exists x. split; [done|].
    unfold Qgain. by replace (k_ - i) with (Z.of_nat (length rs) - (i + 1)) at 2 by lia.
  - unfold backup.
    replace (seqZ 1 k_) with (seqZ 1 (Z.of_nat (Z.to_nat k_)))
      by (by rewrite Z2Nat.id).
    rewrite reversed_range. by rewrite Z2Nat.id by done.
  - intros i s a node node' g_i Hi Hs Hn Hgi Hu.
    eapply backup_step_updates; eauto. rewrite length_map. lia.
Qed.

End BackupFacts.

Lemma backup_gain_and_update_witness :
  (exists x,
     compute_gain Sample.visited_mcts (map Fin [1; 2; 3]%Q) (Fin 4) 1 2 = Ok x /\
     is_number x (Qgain (1 # 2) [1; 2; 3]%Q 4 1 2)) /\
  backup Sample.sample_path (map Fin [1; 2; 3]%Q) (Fin 4) 2 zero one
    Sample.visited_mcts
  = for_each (backup_step Sample.sample_path (map Fin [1; 2; 3]%Q) (Fin 4) 2 zero one)
      (map (fun d : nat => 2 - Z.of_nat d) (seq 0 (Z.to_nat 2)))
      Sample.visited_mcts /\
  (exists node',
     update Sample.used_node (Fin 5) 0 zero one = Ok node' /\
     backup_step Sample.sample_path (map Fin [1; 2; 3]%Q) (Fin 4) 2 zero one 1
       Sample.visited_mcts
     = (set_state_node_dict
          (<[0%nat := node']> (state_node_dict Sample.visited_mcts))
          Sample.visited_mcts, Ok tt)).
Proof.
  destruct (backup_gain_and_update Sample.visited_mcts Sample.sample_path
              (1 # 2) [1; 2; 3]%Q 4 2 zero one)
    as (Hgain & Horder & Hstep); [reflexivity|lia|reflexivity|].
  split; [apply Hgain; lia|]. split; [exact Horder|].
  eexists. split; [reflexivity|].
  apply (Hstep 1 0%nat 0 Sample.used_node _ (Fin 5)); [lia|reflexivity..].
Defined.

(** C3 as stated fails: with [gamma = 0.5], [v_leaf = 4] and the rewards
    [[1, 2, 3]] of a descent of [k = 2] steps, the gain of step 1 is
    [0.5 * 4 + 3 = 5]; the formula of the claim gives [0.5 * 4 + 0.5 * 3]
    when the rewards are numbered from 0 and [0.5 * 4 + 0.5 * 2] when they
    are numbered from 1. *)
Lemma compute_gain_not_claimed_gain :
  ~ (compute_gain Sample.toy_mcts (map Fin [1; 2; 3]%Q) (Fin 4) 1 2
     = Ok (claimed_gain Sample.half
             (fun j => nth (Z.to_nat j) (map Fin [1; 2; 3]%Q) NaN) (Fin 4) 1 2)
     \/
     compute_gain Sample.toy_mcts (map Fin [1; 2; 3]%Q) (Fin 4) 1 2
     = Ok (claimed_gain Sample.half
             (fun j => nth (Z.to_nat (j - 1)) (map Fin [1; 2; 3]%Q) NaN) (Fin 4) 1 2)).
Proof. intros [E|E]; vm_compute in E; discriminate E. Qed.

(** ** The selection rule *)

Section Order.

Implicit Types (x y z best : npfloat).







End Order.

Section Selection.

Context {State : Type} `{Countable State} {Obs : Type}.
Variables np_log np_sqrt : npfloat -> npfloat.
Implicit Types (self : @MCTS State _ _ Obs) (node : @Node State).

Lemma broadcast_same_length (f : npfloat -> npfloat -> npfloat)
    (xs ys : list npfloat) :
  length xs = length ys -> broadcast f xs ys = Ok (zip_with f xs ys).
Proof. intros E. unfold broadcast. by destruct (decide _). Qed.



(** C5 at the first node that every selection loop visits.  The root of a
    simulation is the node that [RootParentNode] constructs; it has no
    [policy], so [get_action] chooses no action on it: the call raises,
    with [AttributeError] when [c1] and [c2] are numbers. *)
Theorem get_action_raises_at_root self (s : State) (action_size : Z) node :
  RootParentNode s action_size = Ok node ->
  raises (get_action np_log np_sqrt self node) /\
  (forall c1_ c2_ : npfloat,
     to_float (c1 self) = Ok c1_ -> to_float (c2 self) = Ok c2_ ->
     get_action np_log np_sqrt self node = Raise AttributeError).
Proof.
  intros Hroot. apply RootParentNode_no_policy in Hroot.
  split; [by apply get_action_no_policy|].
  intros c1_ c2_ Hc1 Hc2. unfold get_action. by rewrite Hc1, Hc2, Hroot.
Qed.

End Selection.

Lemma get_action_raises_at_root_witness :
  raises (get_action Sample.toy_log Sample.toy_sqrt Sample.toy_mcts
            (mkNode [zero; zero] [zero; zero] None 0%nat None)) /\
  (forall c1_ c2_ : npfloat,
     to_float (c1 Sample.toy_mcts) = Ok c1_ ->
     to_float (c2 Sample.toy_mcts) = Ok c2_ ->
     get_action Sample.toy_log Sample.toy_sqrt Sample.toy_mcts
       (mkNode [zero; zero] [zero; zero] None 0%nat None)
     = Raise AttributeError).
Proof.
  apply (get_action_raises_at_root Sample.toy_log Sample.toy_sqrt
           Sample.toy_mcts 0%nat 2).
  reflexivity.
Defined.


(** ** Further properties of [Node] *)

Section NodeIndexing.

Context {State : Type}.
Implicit Types (n : @Node State) (a : Z) (gain min_q max_q : npfloat).

Lemma py_index_out_of_range (len : nat) (a : Z) :
  a < - Z.of_nat len \/ Z.of_nat len <= a -> py_index len a = None.
Proof.
  intros Ha. unfold py_index.
  destruct ((0 <=? a) && (a <? Z.of_nat len)) eqn:E1; [lia|].
  destruct ((- Z.of_nat len <=? a) && (a <? 0)) eqn:E2; [lia|done].
Qed.

Lemma py_index_negative (len : nat) (a : Z) :
  - Z.of_nat len <= a < 0 -> py_index len a = py_index len (a + Z.of_nat len).
Proof.
  intros Ha. unfold py_index.
  destruct ((0 <=? a) && (a <? Z.of_nat len)) eqn:E1; [lia|].
  destruct ((- Z.of_nat len <=? a) && (a <? 0)) eqn:E2; [|lia].
  destruct ((0 <=? a + Z.of_nat len) && (a + Z.of_nat len <? Z.of_nat len)) eqn:E3;
    [done|lia].
Qed.

(** [update] looks at its action only through the positions that the index
    denotes in the two arrays. *)
Lemma update_same_position n gain a a' min_q max_q :
  py_index (length (visits n)) a = py_index (length (visits n)) a' ->
  py_index (length (q_values n)) a = py_index (length (q_values n)) a' ->
  update n gain a min_q max_q = update n gain a' min_q max_q.
Proof.
  intros Ev Eq.
  unfold update, number_visits, q_value, set_q_value, update_num_visit,
    getitem, setitem. rewrite Ev, Eq.
  destruct (py_index (length (visits n)) a') as [p|] eqn:Ev'; cbn; [|done].
  destruct (visits n !! p) as [n_a|] eqn:En; cbn; [|done].
  destruct (py_index (length (q_values n)) a') as [p'|]; cbn; [|done].
  destruct (q_values n !! p') as [q_old|]; cbn; [|done].
  by rewrite Ev, Ev'.
Qed.

(** X1.  For a node whose two arrays have one length [len], [update] raises
    [IndexError] exactly when the action index is outside [-len, len), and
    an index [a] in [-len, 0) is not refused: it updates the action
    [a + len], counted from the end. *)
Theorem update_index_semantics n gain a min_q max_q :
  length (q_values n) = length (visits n) ->
  (update n gain a min_q max_q = Raise IndexError <->
   (a < - Z.of_nat (length (visits n)) \/ Z.of_nat (length (visits n)) <= a)) /\
  (- Z.of_nat (length (visits n)) <= a < 0 ->
   update n gain a min_q max_q
   = update n gain (a + Z.of_nat (length (visits n))) min_q max_q).
Proof.
  intros Hlen.
  assert (Hneg : - Z.of_nat (length (visits n)) <= a < 0 ->
            update n gain a min_q max_q
            = update n gain (a + Z.of_nat (length (visits n))) min_q max_q).
  { intros Ha. apply update_same_position.
    - by apply py_index_negative.
    - rewrite Hlen. by apply py_index_negative. }
  split; [|exact Hneg]. split.
  - intros Hraise.
    destruct (Z_lt_ge_dec a (- Z.of_nat (length (visits n)))) as [|Hlo]; [by left|].
    destruct (Z_le_gt_dec (Z.of_nat (length (visits n))) a) as [|Hhi]; [by right|].
    exfalso.
    destruct (Z_lt_ge_dec a 0) as [Hn|Hn].
    + rewrite Hneg in Hraise by lia.
      destruct (update_valid n gain (a + Z.of_nat (length (visits n))) min_q max_q Hlen)
        as (? & ? & _ & _ & Hu); [lia|]. congruence.
    + destruct (update_valid n gain a min_q max_q Hlen)
        as (? & ? & _ & _ & Hu); [lia|]. congruence.
  - intros Ha.
    unfold update, number_visits, getitem.
    by rewrite py_index_out_of_range.
Qed.

End NodeIndexing.

Lemma update_index_semantics_witness :
  update Sample.used_node one (-1) zero one
  = update Sample.used_node one (-1 + Z.of_nat (length (visits Sample.used_node)))
      zero one.
Proof.
  apply (update_index_semantics Sample.used_node one (-1) zero one).
  - reflexivity.
  - cbn. lia.
Defined.

Section NodeStatistics.

Lemma fopp_number (x : npfloat) (p : Q) : is_number x p -> is_number (fopp x) (- p).
Proof.
  intros (p' & -> & Ep).
  apply (is_number_proper _ (- p')%Q); [by rewrite Ep|]. apply fin_number.
Qed.

Lemma fsub_number (x y : npfloat) (p q : Q) :
  is_number x p -> is_number y q -> is_number (fsub x y) (p - q).
Proof.
  intros Hx Hy. unfold fsub, Qminus. apply fadd_number; [done|by apply fopp_number].
Qed.

Lemma fdiv_number (x y : npfloat) (p q : Q) :
  is_number x p -> is_number y q -> ~ (q == 0)%Q -> is_number (fdiv x y) (p / q).
Proof.
  intros (p' & -> & Ep) (q' & -> & Hqq) Hq.
  assert (Hs : Qsign q' <> Eq).
  { intros E. apply Qsign_eq_iff in E. apply Hq. by rewrite <- Hqq. }
  apply (is_number_proper _ (p' / q')%Q); [by rewrite Ep, Hqq|].
  cbn. destruct (Qsign q'); [done|apply fin_number..].
Qed.

Lemma Qsum_insert (l : list Q) (i : nat) (c c' : Q) :
  l !! i = Some c -> (Qsum (<[i := c']> l) == Qsum l - c + c')%Q.
Proof.
  revert i. induction l as [|x l IH]; intros [|i] Hi; try done.
  - injection Hi as ->. cbn [insert list_insert]. rewrite !Qsum_cons. ring.
  - cbn [insert list_insert]. rewrite !Qsum_cons.
    change (list_insert i c' l) with (<[i := c']> l).
    rewrite (IH i Hi). ring.
Qed.

Lemma Q_of_nat_succ (m : nat) :
  (inject_Z (Z.of_nat (S m)) == inject_Z (Z.of_nat m) + 1)%Q.
Proof. rewrite Nat2Z.inj_succ, <- Z.add_1_r, inject_Z_plus. reflexivity. Qed.

Lemma Q_of_nat_nonneg (m : nat) : (0 <= inject_Z (Z.of_nat m))%Q.
Proof. change 0%Q with (inject_Z 0). rewrite <- Zle_Qle. lia. Qed.

Context {State : Type}.
Implicit Types (n : @Node State) (a : Z).

(** The total of finite visit counts after an [update], in exact
    arithmetic. *)
Lemma update_total n (counts : list Q) (gain : npfloat) a
    (min_q max_q : npfloat) :
  visits n = map Fin counts ->
  length (q_values n) = length (visits n) ->
  0 <= a < Z.of_nat (length (visits n)) ->
  exists n' t,
    update n gain a min_q max_q = Ok n' /\
    get_total_visits n' = fin t /\
    (t == Qsum counts + 1)%Q.
Proof.
  intros Hv Hlen Ha.
  destruct (update_valid n gain a min_q max_q Hlen Ha) as (n_a & q_old & Hn & _ & Hu).
  rewrite Hv in Hn. rewrite list_lookup_fmap in Hn.
  destruct (counts !! Z.to_nat a) as [c|] eqn:Ec; [|done].
  injection Hn as <-.
  exists (mkNode (<[Z.to_nat a := rescaled_mean (Fin c) q_old gain min_q max_q]> (q_values n))
            (<[Z.to_nat a := fadd (Fin c) one]> (visits n))
            (reward n) (state n) (policy n)),
    (Qsum (<[Z.to_nat a := Qred (c + 1)]> counts)).
  split; [exact Hu|]. split.
  - unfold get_total_visits. cbn [visits]. rewrite Hv.
    change (fadd (Fin c) one) with (Fin (Qred (c + 1))).
    change (map Fin) with (fmap (M := list) Fin).
    by rewrite <- list_fmap_insert, fsum_Fin.
  - rewrite (Qsum_insert _ _ c) by done. rewrite Qred_correct. ring.
Qed.

Lemma Qsum_inject_Z (zs : list Z) :
  (Qsum (map inject_Z zs) == inject_Z (Zsum zs))%Q.
Proof.
  induction zs as [|z zs IH]; [reflexivity|].
  cbn [map]. rewrite Qsum_cons, IH.
  change (Zsum (z :: zs)) with (z + Zsum zs). by rewrite inject_Z_plus.
Qed.

(** X2.  On a node whose visit counts are whole numbers, none negative,
    with a total below 2^24 (where float32 counts are exact), an [update]
    on a valid action adds 1 to the total of the visit counts: the total
    counts the updates that the node has received. *)
Theorem update_adds_one_visit n (zs : list Z) (gain : npfloat) a
    (min_q max_q : npfloat) :
  visits n = map of_Z zs ->
  Forall (fun z => 0 <= z) zs ->
  Zsum zs < 2 ^ 24 ->
  length (q_values n) = length (visits n) ->
  0 <= a < Z.of_nat (length (visits n)) ->
  exists n',
    update n gain a min_q max_q = Ok n' /\
    get_total_visits n' = of_Z (Zsum zs + 1).
Proof.
  intros Hv _ _ Hlen Ha.
  destruct (update_total n (map inject_Z zs) gain a min_q max_q)
    as (n' & t & Hu & Htot & Ht); [by rewrite map_map|done|done|].
  exists n'. split; [done|].
  rewrite Htot, (fin_proper t (inject_Z (Zsum zs + 1))).
  - unfold fin, of_Z. by rewrite Qred_inject_Z.
  - by rewrite Ht, Qsum_inject_Z, inject_Z_plus.
Qed.

(** The running mean of [update] under the unit range: when the stored
    Q-value times the visit count is the sum [total] of the gains so far,
    it is so again after the gains [gs]. *)
Lemma update_each_sum n (gs : list Q) a (m : nat) (total : Q) :
  length (q_values n) = length (visits n) ->
  0 <= a < Z.of_nat (length (visits n)) ->
  (exists c q, visits n !! Z.to_nat a = Some (Fin c) /\
               (c == inject_Z (Z.of_nat m))%Q /\
               q_values n !! Z.to_nat a = Some (Fin q) /\
               (q * inject_Z (Z.of_nat m) == total)%Q) ->
  exists n' c q,
    update_each n (map Fin gs) a zero one = Ok n' /\
    visits n' !! Z.to_nat a = Some (Fin c) /\
    (c == inject_Z (Z.of_nat (m + length gs)))%Q /\
    q_values n' !! Z.to_nat a = Some (Fin q) /\
    (q * inject_Z (Z.of_nat (m + length gs)) == total + Qsum gs)%Q.
Proof.
  revert n m total. induction gs as [|g gs IH]; intros n m total Hlen Ha Hinv.
  - destruct Hinv as (c & q & Hc & Ec & Hq & Hqq).
    exists n, c, q. cbn [update_each map length]. rewrite Nat.add_0_r.
    repeat split; try done. change (Qsum []) with 0%Q. rewrite Hqq. ring.
  - destruct Hinv as (c & q & Hc & Ec & Hq & Hqq).
    destruct (update_valid n (Fin g) a zero one Hlen Ha) as (n_a & q_old & Hn & Hqo & Hu).
    rewrite Hc in Hn. injection Hn as <-. rewrite Hq in Hqo. injection Hqo as <-.
    cbn [map update_each]. rewrite Hu. cbn [mbind result_bind].
    pose proof (Q_of_nat_nonneg m) as Hm.
    assert (Hc1 : ~ (c + 1 == 0)%Q).
    { rewrite Ec. intros E.
      assert (0 < inject_Z (Z.of_nat m) + 1)%Q as Hpos.
      { apply Qle_lt_trans with (inject_Z (Z.of_nat m)); [done|].
        rewrite <- (Qplus_0_r (inject_Z (Z.of_nat m))) at 1.
        by apply Qplus_lt_r. }
      rewrite E in Hpos. by apply Qlt_irrefl in Hpos. }
    assert (Hmean : is_number (rescaled_mean (Fin c) (Fin q) (Fin g) zero one)
                      (((c * q + g) / (c + 1) - 0) / (1 - 0))%Q).
    { unfold rescaled_mean.
      apply fdiv_number; [|apply fsub_number; apply Fin_number|by intros E].
      apply fsub_number; [|apply Fin_number].
      apply fdiv_number; [| |done].
      - apply fadd_number; [|apply Fin_number].
        apply fmul_number; apply Fin_number.
      - apply fadd_number; apply Fin_number. }
    destruct Hmean as (q' & Hq' & Hqq').
    set (n1 := mkNode _ _ _ _ _).
    destruct (IH n1 (S m) (total + g)%Q) as (n' & c'' & q'' & Hr & Hc'' & Ec'' & Hq'' & Hqq'').
    + unfold n1. cbn. by rewrite !length_insert.
    + unfold n1. cbn. by rewrite length_insert.
    + exists (Qred (c + 1)), q'. unfold n1. cbn [visits q_values].
      rewrite !list_lookup_insert_eq by lia.
      split; [done|].
      split; [rewrite Qred_correct, Ec, Q_of_nat_succ; reflexivity|].
      split; [by rewrite Hq'|].
      rewrite Hqq', Q_of_nat_succ, <- Ec, <- Hqq, <- Ec. field. done.
    + exists n', c'', q''. split; [done|].
      rewrite Qsum_cons. cbn [length].
      replace (m + S (length gs))%nat with (S m + length gs)%nat by lia.
      split; [done|]. split; [done|]. split; [done|].
      rewrite Hqq''. ring.
Qed.

(** X3.  On the node that the constructor builds, fewer than 2^24 gains
    [gs] (so that the float32 visit count stays exact) applied to one
    action with the unit range [min_q = 0], [max_q = 1] leave, for that
    action, the number of the gains as visit count and their arithmetic
    mean as Q-value. *)
Theorem update_each_mean (st : State) (rw : npfloat) (pol : list npfloat)
    (action_size : Z) n (gs : list Q) a :
  Node_init st rw pol action_size = Ok n ->
  0 <= a < action_size ->
  gs <> [] ->
  Z.of_nat (length gs) < 2 ^ 24 ->
  exists n' c q,
    update_each n (map Fin gs) a zero one = Ok n' /\
    visits n' !! Z.to_nat a = Some c /\
    is_number c (inject_Z (Z.of_nat (length gs))) /\
    q_values n' !! Z.to_nat a = Some q /\
    is_number q (Qsum gs / inject_Z (Z.of_nat (length gs))).
Proof.
  intros Hinit Ha Hgs _.
  unfold Node_init, np_zeros in Hinit.
  destruct (action_size <? 0) eqn:E; [lia|]. cbn in Hinit. injection Hinit as <-.
  destruct (update_each_sum
              (mkNode (replicate (Z.to_nat action_size) zero)
                      (replicate (Z.to_nat action_size) zero)
                      (Some rw) st (Some pol)) gs a 0 0)
    as (n' & c & q & Hr & Hc & Ec & Hq & Hqq).
  - done.
  - cbn. rewrite length_replicate. lia.
  - exists 0%Q, 0%Q. cbn [visits q_values].
    rewrite !lookup_replicate_2 by lia.
    split; [done|]. split; [reflexivity|]. split; [done|]. ring.
  - exists n', (Fin c), (Fin q). cbn [Nat.add] in Ec, Hqq.
    split; [done|]. split; [done|]. split; [by exists c|].
    split; [done|]. exists q. split; [done|].
    assert (Hn : ~ (inject_Z (Z.of_nat (length gs)) == 0)%Q).
    { change 0%Q with (inject_Z 0). rewrite inject_Z_injective.
      destruct gs; [done|]. cbn [length]. lia. }
    rewrite <- (Qplus_0_l (Qsum gs)), <- Hqq. field. done.
Qed.

End NodeStatistics.

Lemma update_adds_one_visit_witness :
  exists n',
    update Sample.used_node Sample.half 1 zero one = Ok n' /\
    get_total_visits n' = of_Z (Zsum [2; 1] + 1).
Proof.
  apply (update_adds_one_visit Sample.used_node [2; 1] Sample.half 1 zero one).
  - reflexivity.
  - repeat constructor; lia.
  - reflexivity.
  - reflexivity.
  - cbn. lia.
Defined.

Lemma update_each_mean_witness :
  exists n' c q,
    update_each Sample.fresh_node (map Fin [1; 2; 6]%Q) 1 zero one = Ok n' /\
    visits n' !! Z.to_nat 1 = Some c /\
    is_number c (inject_Z (Z.of_nat (length [1; 2; 6]%Q))) /\
    q_values n' !! Z.to_nat 1 = Some q /\
    is_number q (Qsum [1; 2; 6]%Q / inject_Z (Z.of_nat (length [1; 2; 6]%Q))).
Proof.
  apply (update_each_mean 0%nat zero [Sample.half; Sample.half] 2
           Sample.fresh_node [1; 2; 6]%Q 1).
  - reflexivity.
  - lia.
  - discriminate.
  - reflexivity.
Defined.

(** ** Further properties of the controller: construction and the caches *)

Section CacheFacts.

Context {State : Type} `{Countable State} {Obs : Type}.
Implicit Types (self : @MCTS State _ _ Obs) (s : State) (a : Z).

#[local] Existing Instance M_ret.
#[local] Existing Instance M_bind.

(** The controller that the constructor returns has empty caches, and the
    dynamics function has not been called. *)
Lemma MCTS_init_fresh (mdl : @Model State Obs) (mcts_param : gmap string pyval)
    (action_length : Z) self :
  MCTS_init mdl mcts_param action_length = Ok self ->
  lookup_table self = ∅ /\ state_node_dict self = ∅ /\ dynamics_log self = [].
Proof.
  unfold MCTS_init.
  destruct (dict_get mcts_param "k_sims") as [k_|]; cbn; [|done].
  destruct (dict_get mcts_param "c1") as [c1_|]; cbn; [|done].
  destruct (dict_get mcts_param "c2") as [c2_|]; cbn; [|done].
  destruct (dict_get mcts_param "gamma") as [g|]; cbn; [|done].
  destruct (py_gt_1 k_) as [[|]|]; cbn; [|done..].
  by intros [= <-].
Qed.

(** X4.  The constructor returns exactly when the configuration has the
    four entries and [k_sims > 1] holds, and the controller that it returns
    has empty caches; a configuration that lacks one of the four entries
    raises [KeyError]. *)
Theorem MCTS_init_outcome (mdl : @Model State Obs) (mcts_param : gmap string pyval)
    (action_length : Z) :
  (forall self,
     MCTS_init mdl mcts_param action_length = Ok self <->
     exists k_ c1_ c2_ g,
       mcts_param !! "k_sims" = Some k_ /\ mcts_param !! "c1" = Some c1_ /\
       mcts_param !! "c2" = Some c2_ /\ mcts_param !! "gamma" = Some g /\
       py_gt_1 k_ = Ok true /\
       self = mkMCTS mdl k_ c1_ c2_ g action_length ∅ ∅ []) /\
  (mcts_param !! "k_sims" = None \/ mcts_param !! "c1" = None \/
   mcts_param !! "c2" = None \/ mcts_param !! "gamma" = None ->
   MCTS_init mdl mcts_param action_length = Raise KeyError).
Proof.
  unfold MCTS_init, dict_get. split.
  - intros self. split.
    + destruct (mcts_param !! "k_sims") as [k_|]; cbn; [|done].
      destruct (mcts_param !! "c1") as [c1_|]; cbn; [|done].
      destruct (mcts_param !! "c2") as [c2_|]; cbn; [|done].
      destruct (mcts_param !! "gamma") as [g|]; cbn; [|done].
      destruct (py_gt_1 k_) as [[|]|e] eqn:Ek; cbn; [|done..].
      intros [= <-]. by exists k_, c1_, c2_, g.
    + intros (k_ & c1_ & c2_ & g & -> & -> & -> & -> & Hk & ->). cbn.
      by rewrite Hk.
  - intros Hmiss.
    destruct (mcts_param !! "k_sims") as [k_|] eqn:E1; cbn; [|done].
    destruct (mcts_param !! "c1") as [c1_|] eqn:E2; cbn; [|done].
    destruct (mcts_param !! "c2") as [c2_|] eqn:E3; cbn; [|done].
    destruct (mcts_param !! "gamma") as [g|] eqn:E4; cbn; [|done].
    destruct Hmiss as [?|[?|[?|?]]]; discriminate.
Qed.

(** The miss of [lookup], with the controller that it leaves. *)
Lemma lookup_miss self s a :
  lookup_table self !! (s, a) = None ->
  lookup s a self
  = (mkMCTS (model self) (k self) (c1 self) (c2 self) (gamma self)
       (action_space self)
       (<[(s, a) := ((dynamics_function (model self) s a).2,
                     (dynamics_function (model self) s a).1)]> (lookup_table self))
       (state_node_dict self) ((s, a) :: dynamics_log self),
     Ok None).
Proof.
  intros Hmiss. unfold lookup, mbind, M_bind, get_self, call_dynamics. cbn.
  rewrite Hmiss. cbn.
  by destruct (dynamics_function (model self) s a) as [rw new_state].
Qed.

(** X5.  [lookup] on a pair that is not cached returns [None]; the same
    call again returns the pair (next state, reward) of the model's
    transition, leaves the controller as it is, and the dynamics function
    has been called once in all. *)
Theorem lookup_again_hits self s a :
  lookup_table self !! (s, a) = None ->
  exists self1,
    lookup s a self = (self1, Ok None) /\
    lookup s a self1
    = (self1, Ok (Some ((dynamics_function (model self) s a).2,
                        (dynamics_function (model self) s a).1))) /\
    dynamics_log self1 = (s, a) :: dynamics_log self.
Proof.
  intros Hmiss. eexists. split; [by apply lookup_miss|].
  split; [|done].
  apply lookup_hit. cbn. apply lookup_insert_eq.
Qed.

(** One [lookup] keeps the agreement of the log and the cache, and the pair
    is cached afterwards. *)
Lemma lookup_keeps_log self s a :
  log_matches_cache self ->
  exists self' r,
    lookup s a self = (self', Ok r) /\
    log_matches_cache self' /\
    (forall p, p ∈ dynamics_log self' <-> p = (s, a) \/ p ∈ dynamics_log self).
Proof.
  intros [Hnd Hlog].
  destruct (lookup_table self !! (s, a)) as [hit|] eqn:E.
  - exists self, (Some hit). split; [by apply lookup_hit|].
    split; [done|]. intros p. split; [by right|].
    intros [->|Hp]; [|done]. apply Hlog. by rewrite E.
  - eexists _, None. split; [by apply lookup_miss|].
    split; [split|]; cbn [dynamics_log lookup_table].
    + apply NoDup_cons. split; [|done].
      intros Hin. apply Hlog in Hin. rewrite E in Hin. by destruct Hin.
    + intros p. rewrite elem_of_cons, lookup_insert_is_Some, Hlog.
      destruct (decide ((s, a) = p)) as [->|Hne]; [tauto|].
      split; [intros [->|?]; [done|by right]|intros [?|[_ ?]]; [done|by right]].
    + intros p. by rewrite elem_of_cons.
Qed.

Lemma lookup_each_keeps_log (queries : list (State * Z)) self :
  log_matches_cache self ->
  exists self',
    lookup_each queries self = (self', Ok tt) /\
    log_matches_cache self' /\
    (forall p, p ∈ dynamics_log self' <-> p ∈ queries \/ p ∈ dynamics_log self).
Proof.
  revert self. induction queries as [|[s a] queries IH]; intros self Hinv.
  - exists self. split; [done|]. split; [done|].
    intros p. rewrite elem_of_nil. tauto.
  - destruct (lookup_keeps_log self s a Hinv) as (self1 & r & Hl & Hinv1 & Hlog1).
    destruct (IH self1 Hinv1) as (self2 & Hr & Hinv2 & Hlog2).
    exists self2. split.
    + cbn [lookup_each]. unfold mbind, M_bind. by rewrite Hl.
    + split; [done|]. intros p.
      rewrite Hlog2, Hlog1, elem_of_cons. tauto.
Qed.

(** X6.  On a controller that the constructor has just returned, any
    sequence of [lookup] calls returns, and the dynamics function has then
    been called exactly once for each pair of the sequence, however often
    the pair occurs in it. *)
Theorem lookup_each_calls_once (mdl : @Model State Obs)
    (mcts_param : gmap string pyval) (action_length : Z) self
    (queries : list (State * Z)) :
  MCTS_init mdl mcts_param action_length = Ok self ->
  exists self',
    lookup_each queries self = (self', Ok tt) /\
    NoDup (dynamics_log self') /\
    (forall p, p ∈ dynamics_log self' <-> p ∈ queries).
Proof.
  intros Hinit.
  apply MCTS_init_fresh in Hinit as (Htable & _ & Hlog0).
  destruct (lookup_each_keeps_log queries self) as (self' & Hr & [Hnd _] & Hlog).
  { split; [rewrite Hlog0; apply NoDup_nil_2|]. intros p.
    rewrite Hlog0, Htable, elem_of_nil, lookup_empty. split; [done|]. by intros [? ?]. }
  exists self'. split; [done|]. split; [done|].
  intros p. rewrite Hlog, Hlog0, elem_of_nil. tauto.
Qed.

End CacheFacts.

Lemma MCTS_init_outcome_witness :
  MCTS_init Sample.toy_model ({[ "k_sims" := PInt 2 ]} : gmap string pyval) 2
  = Raise KeyError.
Proof.
  apply (MCTS_init_outcome Sample.toy_model {[ "k_sims" := PInt 2 ]} 2).
  right. left. reflexivity.
Defined.

Lemma lookup_again_hits_witness :
  exists self1,
    lookup 0%nat 1 Sample.toy_mcts = (self1, Ok None) /\
    lookup 0%nat 1 self1
    = (self1, Ok (Some ((dynamics_function (model Sample.toy_mcts) 0%nat 1).2,
                        (dynamics_function (model Sample.toy_mcts) 0%nat 1).1))) /\
    dynamics_log self1 = (0%nat, 1) :: dynamics_log Sample.toy_mcts.
Proof.
  apply (lookup_again_hits Sample.toy_mcts 0%nat 1). reflexivity.
Defined.

Lemma lookup_each_calls_once_witness :
  exists self',
    lookup_each [(0%nat, 0); (1%nat, 0); (0%nat, 0)] Sample.toy_mcts = (self', Ok tt) /\
    NoDup (dynamics_log self') /\
    (forall p, p ∈ dynamics_log self' <-> p ∈ [(0%nat, 0); (1%nat, 0); (0%nat, 0)]).
Proof.
  apply (lookup_each_calls_once Sample.toy_model
           (Sample.toy_param (PFloat Sample.half)) 2 Sample.toy_mcts).
  reflexivity.
Defined.

Section CacheSoundness.

Context {State : Type} `{Countable State} {Obs : Type}.
Implicit Types (self : @MCTS State _ _ Obs) (s : State) (a : Z).

#[local] Existing Instance M_ret.
#[local] Existing Instance M_bind.

Lemma lookup_keeps_sound self s a :
  cache_sound self ->
  exists self' r,
    lookup s a self = (self', Ok r) /\
    cache_sound self' /\
    model self' = model self /\
    is_Some (lookup_table self' !! (s, a)) /\
    (forall p v, lookup_table self !! p = Some v -> lookup_table self' !! p = Some v).
Proof.
  intros Hsound.
  destruct (lookup_table self !! (s, a)) as [hit|] eqn:E.
  - exists self, (Some hit). split; [by apply lookup_hit|].
    split; [done|]. split; [done|]. split; [by rewrite E|done].
  - eexists _, None. split; [by apply lookup_miss|].
    unfold cache_sound. cbn [lookup_table model].
    split; [|split; [done|split]].
    + intros st action new_state rw.
      destruct (decide ((s, a) = (st, action))) as [[= <- <-]|Hne].
      * rewrite lookup_insert_eq. intros [= <- <-].
        by destruct (dynamics_function (model self) s a).
      * rewrite lookup_insert_ne by done. apply Hsound.
    + rewrite lookup_insert_eq. by eexists.
    + intros p v Hp. rewrite lookup_insert_ne; [done|]. intros <-. congruence.
Qed.

Lemma lookup_each_keeps_sound (queries : list (State * Z)) self :
  cache_sound self ->
  exists self',
    lookup_each queries self = (self', Ok tt) /\
    cache_sound self' /\
    model self' = model self /\
    (forall p, p ∈ queries -> is_Some (lookup_table self' !! p)) /\
    (forall p v, lookup_table self !! p = Some v -> lookup_table self' !! p = Some v).
Proof.
  revert self. induction queries as [|[s a] queries IH]; intros self Hsound.
  - exists self. split; [done|]. split; [done|]. split; [done|].
    split; [|done]. intros p Hp. by apply elem_of_nil in Hp.
  - destruct (lookup_keeps_sound self s a Hsound)
      as (self1 & r & Hl & Hs1 & Hm1 & Hc1 & Hmono1).
    destruct (IH self1 Hs1) as (self2 & Hr & Hs2 & Hm2 & Hc2 & Hmono2).
    exists self2. split.
    { cbn [lookup_each]. unfold mbind, M_bind. by rewrite Hl. }
    split; [done|]. split; [congruence|]. split; [|by auto].
    intros p [->|Hp]%elem_of_cons; [|by apply Hc2].
    destruct Hc1 as [v Hv]. exists v. by apply Hmono2.
Qed.

(** X7.  When every cached transition is the model's, any sequence of
    [lookup] calls returns and keeps it so; the cache only grows, and
    afterwards a [lookup] of any pair of the sequence returns the model's
    transition for it, as (next state, reward), without changing the
    controller. *)
Theorem lookup_each_sound (queries : list (State * Z)) self :
  cache_sound self ->
  exists self',
    lookup_each queries self = (self', Ok tt) /\
    cache_sound self' /\
    (forall p v, lookup_table self !! p = Some v -> lookup_table self' !! p = Some v) /\
    (forall s a, (s, a) ∈ queries ->
       lookup s a self'
       = (self', Ok (Some ((dynamics_function (model self) s a).2,
                           (dynamics_function (model self) s a).1)))).
Proof.
  intros Hsound.
  destruct (lookup_each_keeps_sound queries self Hsound)
    as (self' & Hr & Hs & Hm & Hc & Hmono).
  exists self'. split; [done|]. split; [done|]. split; [done|].
  intros s a Hq. destruct (Hc _ Hq) as [[new_state rw] Hv].
  rewrite (lookup_hit self' s a _ Hv).
  apply Hs in Hv. rewrite Hm in Hv. by rewrite Hv.
Qed.

(** X8.  [reset_nodes] empties both caches, so that the next [lookup] of
    any pair, also of one that was cached before, is a miss: it returns
    [None] and calls the dynamics function again. *)
Theorem reset_nodes_forgets self s a :
  exists self1 self2,
    reset_nodes self = (self1, Ok tt) /\
    lookup_table self1 = ∅ /\
    state_node_dict self1 = ∅ /\
    lookup s a self1 = (self2, Ok None) /\
    dynamics_log self2 = (s, a) :: dynamics_log self.
Proof.
  eexists _, _. split; [reflexivity|]. cbn.
  split; [done|]. split; [done|].
  split; [apply lookup_miss; cbn; apply lookup_empty|done].
Qed.

(** X9.  With an action space that is a size, [state_to_node] on a state
    that has no node asks the model for the prior, registers the node
    [Node(state, reward, prior, action_space)] and returns it; every later
    call for the state returns that same node, whatever reward it is
    given, and changes nothing. *)
Theorem state_to_node_registers self s (rw : npfloat) :
  state_node_dict self !! s = None ->
  0 <= action_space self ->
  exists self1 node,
    state_to_node s rw self = (self1, Ok node) /\
    node = mkNode (replicate (Z.to_nat (action_space self)) zero)
                  (replicate (Z.to_nat (action_space self)) zero)
                  (Some rw) s (Some (prediction_function (model self) s).1) /\
    state_node_dict self1 = <[s := node]> (state_node_dict self) /\
    lookup_table self1 = lookup_table self /\
    (forall rw', state_to_node s rw' self1 = (self1, Ok node)).
Proof.
  intros Hmiss Hsize.
  unfold state_to_node, mbind, M_bind, get_self, lift, Node_init, np_zeros. cbn.
  rewrite Hmiss.
  destruct (prediction_function (model self) s) as [pol v]. cbn.
  destruct (action_space self <? 0) eqn:E; [lia|]. cbn.
  eexists _, _. split; [reflexivity|]. split; [reflexivity|].
  split; [reflexivity|]. split; [reflexivity|].
  intros rw'. apply state_to_node_hit. cbn. apply lookup_insert_eq.
Qed.

End CacheSoundness.

Lemma lookup_each_sound_witness :
  exists self',
    lookup_each [(0%nat, 0); (1%nat, 1)] Sample.toy_mcts = (self', Ok tt) /\
    cache_sound self' /\
    (forall p v, lookup_table Sample.toy_mcts !! p = Some v ->
                 lookup_table self' !! p = Some v) /\
    (forall s a, (s, a) ∈ [(0%nat, 0); (1%nat, 1)] ->
       lookup s a self'
       = (self', Ok (Some ((dynamics_function (model Sample.toy_mcts) s a).2,
                           (dynamics_function (model Sample.toy_mcts) s a).1)))).
Proof.
  apply (lookup_each_sound [(0%nat, 0); (1%nat, 1)] Sample.toy_mcts).
  intros st action new_state rw Hhit. cbn in Hhit.
  by rewrite lookup_empty in Hhit.
Defined.

Lemma state_to_node_registers_witness :
  exists self1 node,
    state_to_node 3%nat one Sample.visited_mcts = (self1, Ok node) /\
    node = mkNode (replicate (Z.to_nat (action_space Sample.visited_mcts)) zero)
                  (replicate (Z.to_nat (action_space Sample.visited_mcts)) zero)
                  (Some one) 3%nat
                  (Some (prediction_function (model Sample.visited_mcts) 3%nat).1) /\
    state_node_dict self1 = <[3%nat := node]> (state_node_dict Sample.visited_mcts) /\
    lookup_table self1 = lookup_table Sample.visited_mcts /\
    (forall rw', state_to_node 3%nat rw' self1 = (self1, Ok node)).
Proof.
  apply (state_to_node_registers Sample.visited_mcts 3%nat one).
  - reflexivity.
  - cbn. lia.
Defined.

(** ** Further properties of the controller: the root and [simulation] *)

Section RootFacts.

Context {State : Type} `{Countable State} {Obs : Type}.
Variables np_log np_sqrt : npfloat -> npfloat.
Implicit Types (self : @MCTS State _ _ Obs) (s : State) (a : Z).

#[local] Existing Instance M_ret.
#[local] Existing Instance M_bind.

Lemma state_to_node_miss self s (rw : npfloat) :
  state_node_dict self !! s = None ->
  0 <= action_space self ->
  state_to_node s rw self
  = (set_state_node_dict
       (<[s := mkNode (replicate (Z.to_nat (action_space self)) zero)
                      (replicate (Z.to_nat (action_space self)) zero)
                      (Some rw) s (Some (prediction_function (model self) s).1)]>
          (state_node_dict self)) self,
     Ok (mkNode (replicate (Z.to_nat (action_space self)) zero)
                (replicate (Z.to_nat (action_space self)) zero)
                (Some rw) s (Some (prediction_function (model self) s).1))).
Proof.
  intros Hmiss Hsize.
  unfold state_to_node, mbind, M_bind, get_self, lift, Node_init, np_zeros. cbn.
  rewrite Hmiss.
  destruct (prediction_function (model self) s) as [pol v]. cbn.
  by destruct (action_space self <? 0) eqn:E; [lia|].
Qed.

Lemma fsum_zeros (n : nat) : fsum (replicate n zero) = zero.
Proof.
  unfold fsum. induction n as [|n IH]; [done|]. cbn [replicate fold_left].
  exact IH.
Qed.

(** The visit distribution of a node without visits: every entry is 0/0. *)
Lemma action_distribution_zeros (q : list npfloat) (n : nat) (rw : option npfloat)
    (s : State) (pol : option (list npfloat)) :
  action_distribution (mkNode q (replicate n zero) rw s pol)
  = Ok (replicate n NaN).
Proof.
  unfold action_distribution. cbn [visits]. rewrite fsum_zeros.
  cbn [mret result_ret]. f_equal.
  induction n as [|n IH]; [done|]. cbn [replicate map]. by rewrite IH.
Qed.

(** X10.  [get_root_policy] for an observation whose state has no node
    (no simulation went through it) does not fail when the action space is
    a size: it registers a new node for the state and returns a vector
    with one NaN for each action. *)
Theorem get_root_policy_unvisited self (obs : Obs) :
  state_node_dict self !! representation_function (model self) obs = None ->
  0 <= action_space self ->
  exists self1,
    get_root_policy obs self
    = (self1, Ok (replicate (Z.to_nat (action_space self)) NaN)) /\
    is_Some (state_node_dict self1 !! representation_function (model self) obs) /\
    lookup_table self1 = lookup_table self /\
    dynamics_log self1 = dynamics_log self.
Proof.
  intros Hmiss Hsize.
  unfold get_root_policy, mbind, M_bind, get_self. cbn.
  rewrite (state_to_node_miss self _ zero Hmiss Hsize).
  unfold lift. rewrite action_distribution_zeros.
  eexists. split; [reflexivity|]. cbn.
  split; [|done]. rewrite lookup_insert_eq. by eexists.
Qed.

(** The controller in which [simulation] registers its root. *)
Lemma simulation_leaves_root self (obs : Obs) (k_arg : option Z) :
  0 <= action_space self ->
  exists e,
    simulation np_log np_sqrt obs k_arg self
    = (set_state_node_dict
         (<[representation_function (model self) obs :=
              mkNode (replicate (Z.to_nat (action_space self)) zero)
                     (replicate (Z.to_nat (action_space self)) zero)
                     None (representation_function (model self) obs) None]>
            (state_node_dict self)) self,
       Raise e).
Proof.
  intros Hsize.
  unfold simulation, mbind, M_bind, get_self, lift, put_self, RootParentNode,
    np_zeros. cbn.
  destruct (action_space self <? 0) eqn:E; [lia|]. cbn.
  set (s0 := representation_function (model self) obs).
  set (root := mkNode _ _ None s0 None).
  set (self1 := set_state_node_dict _ self).
  destruct (py_range _) as [kz|e]; [|by exists e].
  destruct (get_action_no_policy np_log np_sqrt self1 root eq_refl) as [e He].
  exists e.
  destruct (Z.to_nat kz) as [|n]; cbn [selection_loop].
  - unfold mret, M_ret. cbn. by rewrite He.
  - unfold selection_step, mbind, M_bind, get_self, lift. cbn. by rewrite He.
Qed.

(** X11.  With an action space that is a size, [simulation] leaves the
    controller with a new root node for the state of the observation, a
    node without visits and without policy that replaces the node that
    the state may have had; the transition cache is as before and the
    dynamics function has not been called. *)
Theorem simulation_effect self (obs : Obs) (k_arg : option Z) :
  0 <= action_space self ->
  exists self1,
    (simulation np_log np_sqrt obs k_arg self).1 = self1 /\
    state_node_dict self1
    = <[representation_function (model self) obs :=
          mkNode (replicate (Z.to_nat (action_space self)) zero)
                 (replicate (Z.to_nat (action_space self)) zero)
                 None (representation_function (model self) obs) None]>
        (state_node_dict self) /\
    lookup_table self1 = lookup_table self /\
    dynamics_log self1 = dynamics_log self.
Proof.
  intros Hsize.
  destruct (simulation_leaves_root self obs k_arg Hsize) as [e He].
  eexists. split; [reflexivity|]. by rewrite He.
Qed.

(** X12.  After a [simulation] for an observation, [get_root_policy] for
    the same observation returns a vector of NaN: the search has recorded
    no visit at the root. *)
Theorem get_root_policy_after_simulation self (obs : Obs) (k_arg : option Z) :
  0 <= action_space self ->
  exists self1,
    (simulation np_log np_sqrt obs k_arg self).1 = self1 /\
    get_root_policy obs self1
    = (self1, Ok (replicate (Z.to_nat (action_space self)) NaN)).
Proof.
  intros Hsize.
  destruct (simulation_leaves_root self obs k_arg Hsize) as [e He].
  eexists. split; [reflexivity|]. rewrite He. cbn [fst].
  unfold get_root_policy, mbind, M_bind, get_self. cbn [model set_state_node_dict].
  erewrite state_to_node_hit; [|cbn; apply lookup_insert_eq].
  unfold lift. by rewrite action_distribution_zeros.
Qed.

(** X13.  An iteration of the selection loop on a node for which
    [get_action] gives an action.  When the transition is not cached, the
    iteration calls the dynamics function, caches the transition and then
    raises [TypeError], so a repetition finds it cached.  When the
    transition is cached and its next state has a node, the iteration
    changes nothing and raises [AttributeError]. *)
Theorem selection_step_outcome (v : locals) self a :
  get_action np_log np_sqrt self (current_node v) = Ok a ->
  (lookup_table self !! (s_i v, a) = None ->
   selection_step np_log np_sqrt v self
   = (mkMCTS (model self) (k self) (c1 self) (c2 self) (gamma self)
        (action_space self)
        (<[(s_i v, a) := ((dynamics_function (model self) (s_i v) a).2,
                          (dynamics_function (model self) (s_i v) a).1)]>
           (lookup_table self))
        (state_node_dict self) ((s_i v, a) :: dynamics_log self),
      Raise TypeError)) /\
  (forall new_state rw (node : @Node State),
     lookup_table self !! (s_i v, a) = Some (new_state, rw) ->
     state_node_dict self !! new_state = Some node ->
     selection_step np_log np_sqrt v self = (self, Raise AttributeError)).
Proof.
  intros Ha. split.
  - intros Hmiss.
    unfold selection_step, mbind, M_bind, get_self, lift. cbn. rewrite Ha.
    by rewrite (lookup_miss self _ _ Hmiss).
  - intros new_state rw node Hhit Hnode.
    unfold selection_step, mbind, M_bind, get_self, lift. cbn. rewrite Ha.
    rewrite (lookup_hit self _ _ _ Hhit). cbn.
    by rewrite (state_to_node_hit self new_state rw node Hnode).
Qed.

End RootFacts.

Lemma get_root_policy_unvisited_witness :
  exists self1,
    get_root_policy tt Sample.toy_mcts
    = (self1, Ok (replicate (Z.to_nat (action_space Sample.toy_mcts)) NaN)) /\
    is_Some (state_node_dict self1
               !! representation_function (model Sample.toy_mcts) tt) /\
    lookup_table self1 = lookup_table Sample.toy_mcts /\
    dynamics_log self1 = dynamics_log Sample.toy_mcts.
Proof.
  apply (get_root_policy_unvisited Sample.toy_mcts tt).
  - reflexivity.
  - cbn. lia.
Defined.

Lemma simulation_effect_witness :
  exists self1,
    (simulation Sample.toy_log Sample.toy_sqrt tt None Sample.visited_mcts).1 = self1 /\
    state_node_dict self1
    = <[representation_function (model Sample.visited_mcts) tt :=
          mkNode (replicate (Z.to_nat (action_space Sample.visited_mcts)) zero)
                 (replicate (Z.to_nat (action_space Sample.visited_mcts)) zero)
                 None (representation_function (model Sample.visited_mcts) tt) None]>
        (state_node_dict Sample.visited_mcts) /\
    lookup_table self1 = lookup_table Sample.visited_mcts /\
    dynamics_log self1 = dynamics_log Sample.visited_mcts.
Proof.
  apply (simulation_effect Sample.toy_log Sample.toy_sqrt Sample.visited_mcts tt None).
  cbn. lia.
Defined.

Lemma get_root_policy_after_simulation_witness :
  exists self1,
    (simulation Sample.toy_log Sample.toy_sqrt tt (Some 3) Sample.visited_mcts).1 = self1 /\
    get_root_policy tt self1
    = (self1, Ok (replicate (Z.to_nat (action_space Sample.visited_mcts)) NaN)).
Proof.
  apply (get_root_policy_after_simulation Sample.toy_log Sample.toy_sqrt
           Sample.visited_mcts tt (Some 3)).
  cbn. lia.
Defined.

Lemma selection_step_outcome_witness :
  selection_step Sample.toy_log Sample.toy_sqrt
    (mkLocals Sample.used_node 0%nat [] [] PInf NInf) Sample.visited_mcts
  = (mkMCTS Sample.toy_model (PInt 2) (PFloat one) (PFloat one)
       (PFloat Sample.half) 2
       (<[(0%nat, 1) := (1%nat, one)]> ∅)
       (state_node_dict Sample.visited_mcts) [(0%nat, 1)],
     Raise TypeError) /\
  selection_step Sample.toy_log Sample.toy_sqrt
    (mkLocals Sample.used_node 0%nat [] [] PInf NInf)
    (set_lookup_table {[ (0%nat, 1) := (0%nat, one) ]} Sample.visited_mcts)
  = (set_lookup_table {[ (0%nat, 1) := (0%nat, one) ]} Sample.visited_mcts,
     Raise AttributeError).
Proof.
  split.
  - apply (selection_step_outcome Sample.toy_log Sample.toy_sqrt
             (mkLocals Sample.used_node 0%nat [] [] PInf NInf)
             Sample.visited_mcts 1); reflexivity.
  - apply (proj2 (selection_step_outcome Sample.toy_log Sample.toy_sqrt
                    (mkLocals Sample.used_node 0%nat [] [] PInf NInf)
                    (set_lookup_table {[ (0%nat, 1) := (0%nat, one) ]}
                       Sample.visited_mcts)
                    1 eq_refl) 0%nat one Sample.used_node); reflexivity.
Defined.

(** ** Further properties of the gain and of [backup] *)

Section GainOutcome.

Context {State : Type} `{Countable State} {Obs : Type}.
Implicit Types (self : @MCTS State _ _ Obs) (s : State).

#[local] Existing Instance M_ret.
#[local] Existing Instance M_bind.

(** The rewards and the discounts of [compute_gain] always align. *)
Lemma np_dot_aligned (reward_step : list npfloat) (f : nat -> npfloat) :
  np_dot reward_step (map f (seq 0 (length reward_step)))
  = Ok (fsum (zip_with fmul reward_step (map f (seq 0 (length reward_step))))).
Proof.
  unfold np_dot. destruct (decide _) as [_|Hne]; [done|].
  by rewrite length_map, length_seq in Hne.
Qed.

Lemma compute_gain_float self (rewards : list npfloat) (v_l x : npfloat) (i l : Z) :
  gamma self = PFloat x ->
  compute_gain self rewards v_l i l
  = Ok (fadd (fmul (fpow x (l - i)) v_l)
          (fsum (zip_with fmul (slice_from rewards (i + 1))
                   (map (fun e => fpow_nat (fmul x one) e)
                      (seq 0 (length (slice_from rewards (i + 1)))))))).
Proof.
  intros Hg. unfold compute_gain. rewrite Hg.
  cbn [to_float np_power_scalar mbind result_bind].
  by rewrite np_dot_aligned.
Qed.

(** X14.  [compute_gain] raises in two cases only: [TypeError] when [gamma]
    is [None], and [ValueError] when [gamma] is an [int] and the step [i]
    is beyond [l] (an integer to a negative power).  With a [float] gamma
    it returns for every rewards array and every pair of indices. *)
Theorem compute_gain_outcome self (rewards : list npfloat) (v_l : npfloat) (i l : Z) :
  (gamma self = PNone -> compute_gain self rewards v_l i l = Raise TypeError) /\
  (forall z, gamma self = PInt z -> l < i ->
     compute_gain self rewards v_l i l = Raise ValueError) /\
  ((exists x, gamma self = PFloat x) \/ (exists z, gamma self = PInt z /\ i <= l) ->
   exists g, compute_gain self rewards v_l i l = Ok g).
Proof.
  split; [|split].
  - intros Hg. unfold compute_gain. by rewrite Hg.
  - intros z Hg Hl. unfold compute_gain. rewrite Hg.
    cbn [to_float np_power_scalar mbind result_bind].
    by destruct (l - i <? 0) eqn:E; [|lia].
  - intros [[x Hg]|(z & Hg & Hl)].
    + rewrite (compute_gain_float self rewards v_l x i l Hg). by eexists.
    + unfold compute_gain. rewrite Hg.
      cbn [to_float np_power_scalar mbind result_bind].
      destruct (l - i <? 0) eqn:E; [lia|].
      cbn [mbind result_bind]. rewrite np_dot_aligned. by eexists.
Qed.

(** X15.  When no reward lies after step [i] (the array ends at index [i]
    or before), the gain is the discounted leaf value alone; this is the
    case of the first step that [backup] takes, [i = k] on [k + 1]
    rewards. *)
Theorem compute_gain_past_rewards self (rewards : list npfloat)
    (v_l x : npfloat) (i l : Z) :
  gamma self = PFloat x ->
  0 <= i + 1 ->
  Z.of_nat (length rewards) <= i + 1 ->
  compute_gain self rewards v_l i l
  = Ok (fadd (fmul (fpow x (l - i)) v_l) zero).
Proof.
  intros Hg Hi Hlen. rewrite (compute_gain_float self rewards v_l x i l Hg).
  unfold slice_from. destruct (i + 1 <? 0) eqn:E; [lia|].
  by rewrite drop_ge by lia.
Qed.

End GainOutcome.

Lemma compute_gain_outcome_witness :
  compute_gain (Sample.toy_mcts) [one; one] one 5 2 = Ok (fadd (fmul (fpow Sample.half (-3)) one) zero) /\
  compute_gain
    (mkMCTS Sample.toy_model (PInt 2) (PFloat one) (PFloat one) (PInt 2) 2 ∅ ∅ [])
    [one; one] one 5 2
  = Raise ValueError /\
  compute_gain
    (mkMCTS Sample.toy_model (PInt 2) (PFloat one) (PFloat one) PNone 2 ∅ ∅ [])
    [one; one] one 1 2
  = Raise TypeError.
Proof.
  split; [|split].
  - destruct (proj2 (proj2 (compute_gain_outcome Sample.toy_mcts [one; one] one 5 2)))
      as [g Hg]; [left; by eexists|].
    rewrite Hg. vm_compute in Hg. injection Hg as <-. reflexivity.
  - apply (compute_gain_outcome
             (mkMCTS Sample.toy_model (PInt 2) (PFloat one) (PFloat one) (PInt 2) 2 ∅ ∅ [])
             [one; one] one 5 2) with 2; [reflexivity|lia].
  - apply (compute_gain_outcome
             (mkMCTS Sample.toy_model (PInt 2) (PFloat one) (PFloat one) PNone 2 ∅ ∅ [])
             [one; one] one 1 2). reflexivity.
Defined.

Lemma compute_gain_past_rewards_witness :
  compute_gain Sample.toy_mcts [one; of_Z 2; of_Z 3] (of_Z 4) 2 2
  = Ok (fadd (fmul (fpow Sample.half (2 - 2)) (of_Z 4)) zero).
Proof.
  apply (compute_gain_past_rewards Sample.toy_mcts [one; of_Z 2; of_Z 3]
           (of_Z 4) Sample.half 2 2).
  - reflexivity.
  - lia.
  - cbn. lia.
Defined.

Section BackupRuns.

Context {State : Type} `{Countable State} {Obs : Type}.
Implicit Types (self : @MCTS State _ _ Obs) (s : State).

#[local] Existing Instance M_ret.
#[local] Existing Instance M_bind.

Lemma set_state_node_dict_twice (d d' : gmap State Node) self :
  set_state_node_dict d (set_state_node_dict d' self) = set_state_node_dict d self.
Proof. done. Qed.

Lemma set_state_node_dict_same self :
  set_state_node_dict (state_node_dict self) self = self.
Proof. by destruct self. Qed.

(** [state_to_node] changes the node table only. *)
Lemma state_to_node_frame self s (rw : npfloat) :
  (state_to_node s rw self).1
  = set_state_node_dict (state_node_dict (state_to_node s rw self).1) self.
Proof.
  unfold state_to_node, mbind, M_bind, get_self, lift. cbn.
  destruct (state_node_dict self !! s) as [node|]; cbn;
    [by rewrite set_state_node_dict_same|].
  destruct (prediction_function (model self) s) as [pol v].
  destruct (Node_init s rw pol (action_space self)) as [new_node|e]; cbn;
    [done|by rewrite set_state_node_dict_same].
Qed.

Lemma backup_step_frame self (states : list sa_item) (rewards : list npfloat)
    (v_l : npfloat) (k_ : Z) (min_q max_q : npfloat) (i : Z) :
  (backup_step states rewards v_l k_ min_q max_q i self).1
  = set_state_node_dict
      (state_node_dict (backup_step states rewards v_l k_ min_q max_q i self).1)
      self.
Proof.
  unfold backup_step, mbind, M_bind, get_self, lift, put_self. cbn.
  destruct (compute_gain self rewards v_l i k_) as [g_i|e]; cbn;
    [|by rewrite set_state_node_dict_same].
  destruct (getitem states (i - 1)) as [item|e]; cbn;
    [|by rewrite set_state_node_dict_same].
  destruct (unpack_pair item) as [[s_i_1 a_i]|e]; cbn;
    [|by rewrite set_state_node_dict_same].
  destruct (getitem rewards (i - 1)) as [r|e]; cbn;
    [|by rewrite set_state_node_dict_same].
  pose proof (state_to_node_frame self s_i_1 r) as Hf.
  destruct (state_to_node s_i_1 r self) as [self1 [node|e]]; cbn in Hf |- *;
    [|done].
  destruct (update node g_i a_i min_q max_q) as [node'|e]; cbn; [|done].
  rewrite Hf. done.
Qed.

Lemma for_each_backup_frame self (states : list sa_item) (rewards : list npfloat)
    (v_l : npfloat) (k_ : Z) (min_q max_q : npfloat) (indices : list Z) :
  (for_each (backup_step states rewards v_l k_ min_q max_q) indices self).1
  = set_state_node_dict
      (state_node_dict
         (for_each (backup_step states rewards v_l k_ min_q max_q) indices self).1)
      self.
Proof.
  revert self. induction indices as [|i rest IH]; intros self.
  - cbn. by rewrite set_state_node_dict_same.
  - cbn [for_each]. unfold mbind, M_bind.
    pose proof (backup_step_frame self states rewards v_l k_ min_q max_q i) as Hf.
    destruct (backup_step states rewards v_l k_ min_q max_q i self)
      as [self1 [[]|e]]; cbn in Hf |- *; [|done].
    rewrite (IH self1) at 1. rewrite Hf at 2.
    by rewrite set_state_node_dict_twice.
Qed.

(** X16.  Whatever its arguments are and whether it returns or raises,
    [backup] changes nothing of the controller but the node table: the
    transition cache, the hyperparameters and the model stay, and the
    dynamics function is not called.  For [k <= 0] it does nothing. *)
Theorem backup_frame self (states : list sa_item) (rewards : list npfloat)
    (v_l : npfloat) (k_ : Z) (min_q max_q : npfloat) :
  (backup states rewards v_l k_ min_q max_q self).1
  = set_state_node_dict
      (state_node_dict (backup states rewards v_l k_ min_q max_q self).1) self /\
  (k_ <= 0 -> backup states rewards v_l k_ min_q max_q self = (self, Ok tt)).
Proof.
  split; [apply for_each_backup_frame|].
  intros Hk. unfold backup. by rewrite seqZ_nil.
Qed.

(** The first step that [backup] takes is the step [k]. *)
Lemma backup_first_step self (states : list sa_item) (rewards : list npfloat)
    (v_l : npfloat) (k_ : Z) (min_q max_q : npfloat) :
  1 <= k_ ->
  backup states rewards v_l k_ min_q max_q self
  = (_ ← backup_step states rewards v_l k_ min_q max_q k_;
     for_each (backup_step states rewards v_l k_ min_q max_q)
       (reverse (seqZ 1 (k_ - 1)))) self.
Proof.
  intros Hk. unfold backup.
  replace k_ with (Z.of_nat (S (Z.to_nat (k_ - 1)))) at 2 by lia.
  rewrite seqZ_S, reverse_app. cbn [reverse rev_append app].
  replace (1 + Z.of_nat (Z.to_nat (k_ - 1))) with k_ by lia.
  by replace (Z.of_nat (Z.to_nat (k_ - 1))) with (k_ - 1) by lia.
Qed.

(** X17.  [backup] cannot read the path that [simulation] collects:
    [np.append] has flattened the (state, action) tuples, and on a sequence
    that holds no pair the first step of [backup] (with a float gamma and
    [1 <= k <= len(states)]) raises [TypeError] at the unpacking, before
    any node is touched. *)
Theorem backup_rejects_flattened self (states : list sa_item)
    (rewards : list npfloat) (v_l x : npfloat) (k_ : Z) (min_q max_q : npfloat) :
  gamma self = PFloat x ->
  1 <= k_ <= Z.of_nat (length states) ->
  (forall item, item ∈ states -> forall s a, item <> SAPair s a) ->
  backup states rewards v_l k_ min_q max_q self = (self, Raise TypeError).
Proof.
  intros Hg Hk Hflat. rewrite backup_first_step by lia.
  unfold mbind at 1. unfold M_bind.
  unfold backup_step, mbind, M_bind, get_self, lift. cbn.
  rewrite (compute_gain_float self rewards v_l x k_ k_ Hg). cbn.
  destruct (getitem_valid states (k_ - 1)) as (item & Hitem & ->); [lia|]. cbn.
  destruct item as [s a| |]; [|done..].
  exfalso. apply (Hflat (SAPair s a)) with s a; [|done].
  by eapply list_elem_of_lookup_2.
Qed.

End BackupRuns.

Lemma backup_frame_witness :
  backup Sample.sample_path [one; one; one] one 0 zero one Sample.visited_mcts
  = (Sample.visited_mcts, Ok tt).
Proof.
  apply (backup_frame Sample.visited_mcts Sample.sample_path [one; one; one]
           one 0 zero one).
  lia.
Defined.

Lemma backup_rejects_flattened_witness :
  backup [SAState 0%nat; SAAction 1; SAState 1%nat; SAAction 0]
    [one; one] one 1 zero one Sample.visited_mcts
  = (Sample.visited_mcts, Raise TypeError).
Proof.
  apply (backup_rejects_flattened Sample.visited_mcts
           [SAState 0%nat; SAAction 1; SAState 1%nat; SAAction 0]
           [one; one] one Sample.half 1 zero one).
  - reflexivity.
  - cbn. lia.
  - intros item Hitem s a ->.
    repeat (apply elem_of_cons in Hitem as [Hitem|Hitem]; [discriminate Hitem|]).
    by apply elem_of_nil in Hitem.
Defined.

Section BackupReturns.

Context {State : Type} `{Countable State} {Obs : Type}.
Implicit Types (self : @MCTS State _ _ Obs) (s : State).

#[local] Existing Instance M_ret.
#[local] Existing Instance M_bind.

Lemma backup_step_ready self (states : list sa_item) (rewards : list npfloat)
    (v_l x : npfloat) (k_ : Z) (min_q max_q : npfloat) (n : nat) (i : Z) :
  path_ready states n self ->
  gamma self = PFloat x ->
  1 <= i <= Z.of_nat n ->
  Z.of_nat n <= Z.of_nat (length rewards) ->
  exists self',
    backup_step states rewards v_l k_ min_q max_q i self = (self', Ok tt) /\
    path_ready states n self' /\
    gamma self' = gamma self /\
    (forall s, is_Some (state_node_dict self' !! s)
               <-> is_Some (state_node_dict self !! s)).
Proof.
  intros Hready Hg Hi Hrew.
  destruct (Hready (Z.to_nat (i - 1))) as (s & a & node & Hs & Hn & Hlen & Ha); [lia|].
  destruct (update_valid node
              (fadd (fmul (fpow x (k_ - i)) v_l)
                 (fsum (zip_with fmul (slice_from rewards (i + 1))
                          (map (fun e => fpow_nat (fmul x one) e)
                             (seq 0 (length (slice_from rewards (i + 1))))))))
              a min_q max_q Hlen Ha)
    as (n_a & q_old & _ & _ & Hu).
  eexists. split.
  { eapply backup_step_updates; [lia|exact Hs|exact Hn| |exact Hu].
    by apply compute_gain_float. }
  cbn [state_node_dict set_state_node_dict gamma].
  split; [|split; [done|]].
  - intros j Hj. unfold set_state_node_dict. cbn [state_node_dict].
    destruct (Hready j Hj) as (sj & aj & nodej & Hsj & Hnj & Hlenj & Haj).
    destruct (decide (sj = s)) as [->|Hne].
    + rewrite Hn in Hnj. injection Hnj as <-.
      eexists s, aj, _. split; [done|].
      split; [apply lookup_insert_eq|]. cbn [q_values visits].
      by rewrite !length_insert.
    + exists sj, aj, nodej. split; [done|].
      split; [by rewrite lookup_insert_ne|done].
  - intros s'. unfold set_state_node_dict. cbn [state_node_dict].
    rewrite lookup_insert_is_Some.
    destruct (decide (s = s')) as [<-|Hne]; [|tauto].
    split; [by rewrite Hn|by left].
Qed.

Lemma for_each_backup_ready self (states : list sa_item) (rewards : list npfloat)
    (v_l x : npfloat) (k_ : Z) (min_q max_q : npfloat) (n : nat)
    (indices : list Z) :
  path_ready states n self ->
  gamma self = PFloat x ->
  Z.of_nat n <= Z.of_nat (length rewards) ->
  (forall i, i ∈ indices -> 1 <= i <= Z.of_nat n) ->
  exists self',
    for_each (backup_step states rewards v_l k_ min_q max_q) indices self
    = (self', Ok tt) /\
    path_ready states n self' /\
    (forall s, is_Some (state_node_dict self' !! s)
               <-> is_Some (state_node_dict self !! s)).
Proof.
  intros Hready Hg Hrew. revert self Hready Hg.
  induction indices as [|i rest IH]; intros self Hready Hg Hind.
  - exists self. by repeat split.
  - destruct (backup_step_ready self states rewards v_l x k_ min_q max_q n i)
      as (self1 & Hstep & Hready1 & Hg1 & Hdom1); try done.
    { apply Hind. by left. }
    destruct (IH self1 Hready1) as (self2 & Hrest & Hready2 & Hdom2).
    { by rewrite Hg1. }
    { intros j Hj. apply Hind. by right. }
    exists self2. split.
    { cbn [for_each]. unfold mbind, M_bind. by rewrite Hstep. }
    split; [done|]. intros s. by rewrite Hdom2, Hdom1.
Qed.

(** X18.  On a path of [k] pairs whose states all have nodes that their
    actions index, with a float gamma and at least [k] rewards, [backup]
    returns; it creates no node and removes none, and the path is as ready
    for a further [backup] as before. *)
Theorem backup_returns self (states : list sa_item) (rewards : list npfloat)
    (v_l x : npfloat) (k_ : Z) (min_q max_q : npfloat) :
  path_ready states (Z.to_nat k_) self ->
  gamma self = PFloat x ->
  k_ <= Z.of_nat (length rewards) ->
  exists self',
    backup states rewards v_l k_ min_q max_q self = (self', Ok tt) /\
    path_ready states (Z.to_nat k_) self' /\
    (forall s, is_Some (state_node_dict self' !! s)
               <-> is_Some (state_node_dict self !! s)).
Proof.
  intros Hready Hg Hrew. unfold backup.
  apply (for_each_backup_ready self states rewards v_l x k_ min_q max_q
           (Z.to_nat k_)); [done|done|lia|].
  intros i Hi. apply elem_of_reverse, elem_of_seqZ in Hi. lia.
Qed.

End BackupReturns.

Lemma backup_returns_witness :
  exists self',
    backup [SAPair 0%nat 0; SAPair 0%nat 1] [one; of_Z 2; of_Z 3] (of_Z 4) 2
      zero (of_Z 8) Sample.visited_mcts
    = (self', Ok tt) /\
    path_ready [SAPair 0%nat 0; SAPair 0%nat 1] (Z.to_nat 2) self' /\
    (forall s, is_Some (state_node_dict self' !! s)
               <-> is_Some (state_node_dict Sample.visited_mcts !! s)).
Proof.
  apply (backup_returns Sample.visited_mcts [SAPair 0%nat 0; SAPair 0%nat 1]
           [one; of_Z 2; of_Z 3] (of_Z 4) Sample.half 2 zero (of_Z 8)).
  - intros [|[|i]] Hi.
    + exists 0%nat, 0, Sample.used_node. cbn. repeat split; lia.
    + exists 0%nat, 1, Sample.used_node. cbn. repeat split; lia.
    + cbn in Hi. lia.
  - reflexivity.
  - cbn. lia.
Defined.

(** ** The node table binds every node to its own state *)

Section Keyed.

Context {State : Type} `{Countable State} {Obs : Type}.
Variables np_log np_sqrt : npfloat -> npfloat.
Implicit Types (self : @MCTS State _ _ Obs) (s : State).

#[local] Existing Instance M_ret.
#[local] Existing Instance M_bind.

Lemma keyed_insert self s (node : @Node State) :
  keyed self -> state node = s ->
  keyed (set_state_node_dict (<[s := node]> (state_node_dict self)) self).
Proof.
  intros Hk Hs s' node'. unfold set_state_node_dict. cbn [state_node_dict].
  destruct (decide (s = s')) as [<-|Hne].
  - rewrite lookup_insert_eq. by intros [= <-].
  - rewrite lookup_insert_ne by done. apply Hk.
Qed.

Lemma Node_init_state s (rw : npfloat) (pol : list npfloat) (size : Z)
    (node : @Node State) :
  Node_init s rw pol size = Ok node -> state node = s.
Proof.
  unfold Node_init, np_zeros. destruct (size <? 0); cbn; [done|].
  by intros [= <-].
Qed.

Lemma update_keeps_state (node node' : @Node State) (gain : npfloat) (a : Z)
    (min_q max_q : npfloat) :
  update node gain a min_q max_q = Ok node' -> state node' = state node.
Proof.
  unfold update, number_visits, q_value, set_q_value, update_num_visit.
  destruct (getitem (visits node) a) as [n_a|]; cbn; [|done].
  destruct (getitem (q_values node) a) as [q_old|]; cbn; [|done].
  destruct (setitem (q_values node) a _) as [q|]; cbn; [|done].
  destruct (getitem (visits node) a) as [n_a'|]; cbn; [|done].
  destruct (setitem (visits node) a _) as [v|]; cbn; [|done].
  by intros [= <-].
Qed.

(** [state_to_node] keeps the binding, and the node that it returns is the
    one bound to the state. *)
Lemma state_to_node_keyed self s (rw : npfloat) :
  keyed self ->
  keyed (state_to_node s rw self).1 /\
  (forall node, (state_to_node s rw self).2 = Ok node -> state node = s).
Proof.
  intros Hk. unfold state_to_node, mbind, M_bind, get_self, lift, put_self. cbn.
  destruct (state_node_dict self !! s) as [node|] eqn:E; cbn.
  - split; [done|]. intros node' [= <-]. by apply Hk.
  - destruct (prediction_function (model self) s) as [pol v].
    destruct (Node_init s rw pol (action_space self)) as [new_node|e] eqn:En; cbn.
    + apply Node_init_state in En.
      split; [by apply keyed_insert|]. by intros node' [= <-].
    + by split.
Qed.

Lemma backup_step_keyed (states : list (@sa_item State)) (rewards : list npfloat)
    (v_l : npfloat) (k_ : Z) (min_q max_q : npfloat) (i : Z) :
  preserves (@keyed State _ _ Obs) (backup_step states rewards v_l k_ min_q max_q i).
Proof.
  intros self Hk.
  unfold backup_step, mbind, M_bind, get_self, lift, put_self. cbn.
  destruct (compute_gain self rewards v_l i k_) as [g_i|e]; cbn; [|done].
  destruct (getitem states (i - 1)) as [item|e]; cbn; [|done].
  destruct (unpack_pair item) as [[s_i_1 a_i]|e]; cbn; [|done].
  destruct (getitem rewards (i - 1)) as [r|e]; cbn; [|done].
  destruct (state_to_node_keyed self s_i_1 r Hk) as [Hk1 Hnode].
  destruct (state_to_node s_i_1 r self) as [self1 [node|e]]; cbn in *; [|done].
  destruct (update node g_i a_i min_q max_q) as [node'|e] eqn:Eu; cbn; [|done].
  apply keyed_insert; [done|].
  rewrite (update_keeps_state _ _ _ _ _ _ Eu). by apply Hnode.
Qed.

Lemma for_each_keyed (body : Z -> @M State _ _ Obs unit) (indices : list Z) :
  (forall i, preserves (@keyed State _ _ Obs) (body i)) ->
  preserves (@keyed State _ _ Obs) (for_each body indices).
Proof.
  intros Hbody. induction indices as [|i rest IH]; intros self Hk; [done|].
  cbn [for_each]. unfold mbind, M_bind.
  pose proof (Hbody i self Hk) as Hk1.
  destruct (body i self) as [self1 [[]|e]]; cbn in *; [|done].
  by apply IH.
Qed.

Lemma simulation_keyed (obs : Obs) (k_arg : option Z) :
  preserves (@keyed State _ _ Obs) (simulation np_log np_sqrt obs k_arg).
Proof.
  intros self Hk.
  destruct (Z_lt_ge_dec (action_space self) 0) as [Hneg|Hsize].
  - unfold simulation, mbind, M_bind, get_self, lift, RootParentNode, np_zeros.
    cbn. by destruct (action_space self <? 0) eqn:E; [|lia].
  - destruct (simulation_leaves_root np_log np_sqrt self obs k_arg) as [e ->]; [lia|].
    by apply keyed_insert.
Qed.

(** X19.  In the node table every node is bound to its own state: the
    table of a new controller is so, and each operation of the controller
    keeps it so, whether the operation returns or raises. *)
Theorem keyed_invariant :
  (forall (mdl : @Model State Obs) mcts_param action_length self,
     MCTS_init mdl mcts_param action_length = Ok self -> keyed self) /\
  (forall s a, preserves (@keyed State _ _ Obs) (lookup s a)) /\
  (forall s rw, preserves (@keyed State _ _ Obs) (state_to_node s rw)) /\
  (forall s rw pol, preserves (@keyed State _ _ Obs) (store s rw pol)) /\
  preserves (@keyed State _ _ Obs) reset_nodes /\
  (forall obs, preserves (@keyed State _ _ Obs) (get_root_policy obs)) /\
  (forall states rewards v_l k_ min_q max_q,
     preserves (@keyed State _ _ Obs) (backup states rewards v_l k_ min_q max_q)) /\
  (forall obs k_arg, preserves (@keyed State _ _ Obs) (simulation np_log np_sqrt obs k_arg)).
Proof.
  split; [|split; [|split; [|split; [|split; [|split; [|split]]]]]].
  - intros mdl mcts_param action_length self Hinit.
    unfold MCTS_init in Hinit.
    destruct (dict_get mcts_param "k_sims") as [k_|]; cbn in Hinit; [|done].
    destruct (dict_get mcts_param "c1") as [c1_|]; cbn in Hinit; [|done].
    destruct (dict_get mcts_param "c2") as [c2_|]; cbn in Hinit; [|done].
    destruct (dict_get mcts_param "gamma") as [g|]; cbn in Hinit; [|done].
    destruct (py_gt_1 k_) as [[|]|]; cbn in Hinit; [|done..].
    injection Hinit as <-. intros s node Hn. cbn [state_node_dict] in Hn.
    by apply lookup_empty_Some in Hn.
  - intros s a self Hk.
    destruct (lookup_table self !! (s, a)) as [hit|] eqn:E.
    + by rewrite (lookup_hit self s a hit E).
    + by rewrite (lookup_miss self s a E).
  - intros s rw self Hk. by apply state_to_node_keyed.
  - intros s rw pol self Hk.
    unfold store, mbind, M_bind, get_self, lift, put_self. cbn.
    destruct (Node_init s rw pol (action_space self)) as [new_node|e] eqn:En; cbn;
      [|done].
    apply keyed_insert; [done|]. by apply Node_init_state in En.
  - intros self Hk s node Hn.
    unfold reset_nodes, mbind, M_bind, get_self, put_self in Hn. cbn in Hn.
    by apply lookup_empty_Some in Hn.
  - intros obs self Hk.
    unfold get_root_policy, mbind, M_bind, get_self, lift. cbn.
    destruct (state_to_node_keyed self (representation_function (model self) obs)
                zero Hk) as [Hk1 _].
    by destruct (state_to_node _ zero self) as [self1 [node|e]].
  - intros states rewards v_l k_ min_q max_q. unfold backup.
    apply for_each_keyed. intros i. apply backup_step_keyed.
  - apply simulation_keyed.
Qed.

End Keyed.

Lemma keyed_invariant_witness :
  keyed (store 1%nat one [Sample.half; Sample.half] Sample.toy_mcts).1.
Proof.
  destruct (@keyed_invariant nat _ _ unit Sample.toy_log Sample.toy_sqrt)
    as (Hinit & _ & _ & Hstore & _).
  apply Hstore.
  apply (Hinit Sample.toy_model (Sample.toy_param (PFloat Sample.half)) 2).
  reflexivity.
Defined.

(** ** Properties of the model of [nomad_model.py] *)

Module NomadFacts.

Section NomadFacts.

Context {Tensor Obs Action Logits : Type}.
Variable net_representation : Obs -> result Tensor.
Variable net_argmax : Logits -> result Action.
Variable encode : list Tensor -> Action -> result Tensor.
Variable net_dynamic : Tensor -> result Tensor.
Variable net_dynamic_head : Tensor -> result Tensor.
Variable net_reward_head : Tensor -> result Tensor.

Implicit Types (self : @Nomad.NomadModel Tensor) (t : Tensor).

Local Abbreviation representation_function :=
  (Nomad.representation_function net_representation).
Local Abbreviation represent_each := (Nomad.represent_each net_representation).
Local Abbreviation forward :=
  (Nomad.forward encode net_dynamic net_dynamic_head net_reward_head).
Local Abbreviation reward_function :=
  (Nomad.reward_function net_argmax encode net_dynamic net_dynamic_head
     net_reward_head).

(** Once the cache is filled, each call that returns appends its output
    and drops the oldest entry. *)
Lemma represent_each_slides self (obss : list Obs) (outs : list Tensor) :
  Forall2 (fun obs t => net_representation obs = Ok t) obss outs ->
  Nomad.cache self <> [] ->
  exists self',
    represent_each self obss = (self', Ok tt) /\
    Nomad.cache self' = drop (length outs) (Nomad.cache self ++ outs) /\
    Nomad.order self' = Nomad.order self /\
    Nomad.hidden self' = match last outs with
                         | Some t => Some t
                         | None => Nomad.hidden self
                         end.
Proof.
  intros Hall. revert self.
  induction Hall as [|obs t obss outs Hnet _ IH]; intros self Hne.
  - exists self. split; [done|]. split; [by rewrite app_nil_r|]. done.
  - destruct (Nomad.cache self) as [|c cs] eqn:Ec; [done|].
    destruct (IH (Nomad.mkNomadModel (Some t) (cs ++ [t]) (Nomad.order self)))
      as (self' & Hrun & Hcache & Horder & Hhidden).
    { by destruct cs. }
    exists self'. split.
    { cbn [Nomad.represent_each]. unfold Nomad.representation_function.
      rewrite Hnet, Ec. exact Hrun. }
    split; [|split; [done|]].
    + rewrite Hcache. cbn [Nomad.cache length app drop].
      by rewrite <- app_assoc.
    + rewrite Hhidden, last_cons. cbn [Nomad.hidden]. by destruct (last outs).
Qed.

(** X20.  From the state that the constructor leaves, with [order >= 1],
    calls of [representation_function] that return the outputs [t1],
    [outs] leave the latest output in [hidden] and keep a cache of exactly
    [order] entries: [order] copies of the first output, shifted by one
    for each later output; as soon as [order] outputs have been seen, the
    cache is the last [order] of them. *)
Theorem cache_window (order_ : Z) (obss : list Obs) t1 (outs : list Tensor) :
  1 <= order_ ->
  Forall2 (fun obs t => net_representation obs = Ok t) obss (t1 :: outs) ->
  exists self',
    represent_each (Nomad.NomadModel_init order_) obss = (self', Ok tt) /\
    Nomad.cache self'
    = drop (length outs) (replicate (Z.to_nat order_) t1 ++ outs) /\
    length (Nomad.cache self') = Z.to_nat order_ /\
    Nomad.hidden self' = last (t1 :: outs) /\
    ((Z.to_nat order_ <= length (t1 :: outs))%nat ->
     Nomad.cache self'
     = drop (length (t1 :: outs) - Z.to_nat order_) (t1 :: outs)).
Proof.
  intros Horder Hall.
  apply Forall2_cons_inv_r in Hall as (obs & obss' & Hnet & Hall & ->).
  destruct (represent_each_slides
              (Nomad.mkNomadModel (Some t1) (replicate (Z.to_nat order_) t1) order_)
              obss' outs Hall)
    as (self' & Hrun & Hcache & _ & Hhidden).
  { cbn. destruct (Z.to_nat order_) eqn:E; [lia|done]. }
  cbn [Nomad.cache Nomad.hidden] in Hcache, Hhidden.
  exists self'. split.
  { cbn [Nomad.represent_each]. unfold Nomad.representation_function.
    by rewrite Hnet. }
  split; [done|]. split; [|split].
  - rewrite Hcache, length_drop, length_app, length_replicate. lia.
  - rewrite Hhidden. rewrite last_cons. by destruct (last outs).
  - intros Hlen. rewrite Hcache. cbn [length] in Hlen |- *.
    destruct (decide (Z.to_nat order_ <= length outs)%nat) as [Hle|Hgt].
    + rewrite drop_app_ge by (rewrite length_replicate; lia).
      rewrite length_replicate.
      replace (S (length outs) - Z.to_nat order_)%nat
        with (S (length outs - Z.to_nat order_)) by lia.
      done.
    + replace (S (length outs) - Z.to_nat order_)%nat with 0%nat by lia.
      replace (Z.to_nat order_) with (S (length outs)) by lia.
      rewrite replicate_S_end, <- app_assoc.
      rewrite drop_app_ge by (rewrite length_replicate; lia).
      rewrite length_replicate, Nat.sub_diag. done.
Qed.

(** With [evolving = False] the hidden states count only through their
    last element. *)
Lemma forward_last (order_ : Z) (hs : list Tensor) t (action : Action) :
  forward order_ (hs ++ [t]) action false = forward order_ [t] action false.
Proof.
  assert (Hlast : forall l : list Tensor, getitem (l ++ [t]) (-1) = Ok t).
  { intros l. unfold getitem.
    rewrite py_index_negative by (rewrite length_app; cbn [length]; lia).
    rewrite py_index_valid by (rewrite length_app; cbn [length]; lia).
    replace (Z.to_nat (-1 + Z.of_nat (length (l ++ [t])))) with (length l)
      by (rewrite length_app; cbn [length]; lia).
    by rewrite lookup_app_r, Nat.sub_diag by lia. }
  unfold Nomad.forward. rewrite Hlast.
  pose proof (Hlast []) as Hone. cbn [app] in Hone. by rewrite Hone.
Qed.

(** X21.  After a [representation_function] that returns [t], on a model
    with [order >= 1], [reward_function] computes the reward from [order]
    copies of [t] alone: older entries of the cache do not count. *)
Theorem reward_function_uses_latest self (obs : Obs) t self' (logits : Logits) :
  1 <= Nomad.order self ->
  representation_function self obs = (self', Ok t) ->
  reward_function self' logits
  = (actions ← net_argmax logits;
     '(rw, _) ← forward (Nomad.order self) [t] actions false;
     mret rw).
Proof.
  intros Horder Hrep. unfold Nomad.representation_function in Hrep.
  destruct (net_representation obs) as [output|e]; [|done].
  injection Hrep as <- <-.
  unfold Nomad.reward_function, Nomad.dynamics_function.
  cbn [Nomad.cache Nomad.order].
  destruct (net_argmax logits) as [actions|e]; cbn [mbind result_bind]; [|done].
  destruct (Nomad.cache self) as [|c cs].
  - destruct (Z.to_nat (Nomad.order self)) as [|n] eqn:E; [lia|].
    rewrite replicate_S_end. by rewrite forward_last.
  - change (drop 1 ((c :: cs) ++ [output])) with (cs ++ [output]).
    by rewrite forward_last.
Qed.

(** X22.  While the cache is empty, that is before the first
    [representation_function] and, when [order <= 0], also after any
    number of them, [reward_function] raises [IndexError] as soon as the
    actions are computed; the assertion that asks for a call of [forward]
    first does not fire. *)
Theorem reward_function_empty_cache self (obss : list Obs) (logits : Logits)
    (actions : Action) :
  Nomad.cache self = [] ->
  obss = [] \/ Nomad.order self <= 0 ->
  net_argmax logits = Ok actions ->
  reward_function (represent_each self obss).1 logits = Raise IndexError.
Proof.
  intros Hcache Hcase Harg.
  assert (Hempty : Nomad.cache (represent_each self obss).1 = []).
  { destruct Hcase as [->|Horder]; [done|].
    revert self Hcache Horder. induction obss as [|obs obss IH];
      intros self Hcache Horder; [done|].
    cbn [Nomad.represent_each]. unfold Nomad.representation_function.
    destruct (net_representation obs) as [output|e]; [|done].
    apply IH; cbn [Nomad.cache Nomad.order]; [|done].
    rewrite Hcache. by replace (Z.to_nat (Nomad.order self)) with 0%nat by lia. }
  unfold Nomad.reward_function, Nomad.dynamics_function, Nomad.forward.
  by rewrite Harg, Hempty.
Qed.

End NomadFacts.

End NomadFacts.

Lemma cache_window_witness :
  exists self',
    Nomad.represent_each (fun obs : nat => Ok obs) (Nomad.NomadModel_init 2)
      [5; 7; 9]%nat
    = (self', Ok tt) /\
    Nomad.cache self'
    = drop (length [7; 9]%nat) (replicate (Z.to_nat 2) 5%nat ++ [7; 9]%nat) /\
    length (Nomad.cache self') = Z.to_nat 2 /\
    Nomad.hidden self' = last [5; 7; 9]%nat /\
    ((Z.to_nat 2 <= length [5; 7; 9]%nat)%nat ->
     Nomad.cache self'
     = drop (length [5; 7; 9]%nat - Z.to_nat 2) [5; 7; 9]%nat).
Proof.
  apply (NomadFacts.cache_window (fun obs : nat => Ok obs) 2 [5; 7; 9]%nat
           5%nat [7; 9]%nat).
  - lia.
  - repeat constructor.
Defined.

Lemma reward_function_uses_latest_witness :
  Nomad.reward_function (fun logits : nat => Ok logits)
    (fun (hs : list nat) (action : nat) => Ok (length hs + action)%nat)
    (fun t : nat => Ok t) (fun t : nat => Ok t) (fun t : nat => Ok t)
    (Nomad.mkNomadModel (Some 5%nat) [5; 5]%nat 2) 1%nat
  = (actions ← Ok 1%nat;
     '(rw, _) ← Nomad.forward
                  (fun (hs : list nat) (action : nat) => Ok (length hs + action)%nat)
                  (fun t : nat => Ok t) (fun t : nat => Ok t) (fun t : nat => Ok t)
                  2 [5%nat] actions false;
     mret rw).
Proof.
  apply (NomadFacts.reward_function_uses_latest (fun obs : nat => Ok obs)
           (fun logits : nat => Ok logits)
           (fun (hs : list nat) (action : nat) => Ok (length hs + action)%nat)
           (fun t : nat => Ok t) (fun t : nat => Ok t) (fun t : nat => Ok t)
           (Nomad.NomadModel_init 2) 5%nat 5%nat).
  - cbn. lia.
  - reflexivity.
Defined.

Lemma reward_function_empty_cache_witness :
  Nomad.reward_function (fun logits : nat => Ok logits)
    (fun (hs : list nat) (action : nat) => Ok (length hs + action)%nat)
    (fun t : nat => Ok t) (fun t : nat => Ok t) (fun t : nat => Ok t)
    (Nomad.represent_each (fun obs : nat => Ok obs) (Nomad.NomadModel_init 0)
       [5; 7]%nat).1 1%nat
  = Raise IndexError.
Proof.
  apply (NomadFacts.reward_function_empty_cache (fun obs : nat => Ok obs)
           (fun logits : nat => Ok logits)
           (fun (hs : list nat) (action : nat) => Ok (length hs + action)%nat)
           (fun t : nat => Ok t) (fun t : nat => Ok t) (fun t : nat => Ok t)
           (Nomad.NomadModel_init 0) [5; 7]%nat 1%nat 1%nat).
  - reflexivity.
  - right. cbn. lia.
  - reflexivity.
Defined.

(** ** Edge cases of the selection rule *)

Section SelectionEdges.

Context {State : Type} `{Countable State} {Obs : Type}.
Variables np_log np_sqrt : npfloat -> npfloat.
Implicit Types (self : @MCTS State _ _ Obs) (node : @Node State).

Lemma argmax_from_zeros (bi i n : nat) :
  argmax_from zero bi i (replicate n zero) = bi.
Proof.
  revert i. induction n as [|n IH]; intros i; [done|].
  cbn [replicate argmax_from is_nan zero of_Z]. exact (IH (S i)).
Qed.

Lemma unvisited_score (p tau : Q) (s0 : npfloat) :
  s0 = zero ->
  fadd zero (fdiv (fmul (fmul (Fin p) (Fin tau)) s0) (fadd one zero)) = zero.
Proof.
  intros ->.
  change (fmul (Fin p) (Fin tau)) with (Fin (Qred (p * tau))).
  change (fmul (Fin (Qred (p * tau))) zero) with (fin (Qred (p * tau) * 0)).
  rewrite (fin_proper (Qred (p * tau) * 0) 0) by ring.
  reflexivity.
Qed.

(** X23.  On a node that has no visit yet, the exploration term is
    multiplied by the square root of a zero total, so (the square root of
    0 being 0, and [term] and the prior being finite) every action scores
    0 and [get_action] returns action 0, whatever the prior policy is. *)
Theorem get_action_unvisited self node (c1_ c2_ : npfloat) (ps : list Q) (n : nat) :
  to_float (c1 self) = Ok c1_ ->
  to_float (c2 self) = Ok c2_ ->
  policy node = Some (map Fin ps) ->
  length ps = S n ->
  q_values node = replicate (S n) zero ->
  visits node = replicate (S n) zero ->
  np_sqrt zero = zero ->
  is_fin (fsub (fadd c1_ (np_log (fadd (fadd zero c2_) one))) (np_log c2_)) = true ->
  get_action np_log np_sqrt self node = Ok 0.
Proof.
  intros Hc1 Hc2 Hp Hlen Hq Hv Hsqrt Hterm.
  unfold get_action, get_total_visits. rewrite Hc1, Hc2, Hp, Hq, Hv.
  cbn [mbind result_bind getattr]. rewrite fsum_zeros, Hsqrt.
  destruct (fsub _ _) as [tau| | |]; try done.
  rewrite broadcast_same_length
    by (rewrite !length_map, length_replicate; lia).
  cbn [mbind result_bind].
  rewrite broadcast_same_length
    by (rewrite length_zip_with, !length_map, !length_replicate; lia).
  cbn [mbind result_bind].
  assert (Hvalues :
    zip_with fadd (replicate (S n) zero)
      (zip_with fdiv
         (map (fun x => fmul x zero) (map (fun p => fmul p (Fin tau)) (map Fin ps)))
         (map (fadd one) (replicate (S n) zero)))
    = replicate (S n) zero).
  { rewrite <- Hlen. clear. induction ps as [|p ps IH]; [done|].
    cbn [length replicate map zip_with]. f_equal; [|exact IH].
    by apply unvisited_score. }
  rewrite Hvalues. cbn [replicate np_argmax].
  by rewrite argmax_from_zeros.
Qed.

(** X24.  With an empty action space (arrays of length 0) [get_action]
    raises [ValueError] for every policy, when [c1] and [c2] are numbers. *)
Theorem get_action_empty_action_space self node (c1_ c2_ : npfloat)
    (pol : list npfloat) :
  to_float (c1 self) = Ok c1_ ->
  to_float (c2 self) = Ok c2_ ->
  policy node = Some pol ->
  q_values node = [] ->
  visits node = [] ->
  get_action np_log np_sqrt self node = Raise ValueError.
Proof.
  intros Hc1 Hc2 Hp Hq Hv.
  unfold get_action, get_total_visits. rewrite Hc1, Hc2, Hp, Hq, Hv.
  cbn [mbind result_bind getattr map].
  destruct pol as [|p [|p' pol]]; done.
Qed.

End SelectionEdges.

Lemma get_action_unvisited_witness :
  get_action Sample.toy_log Sample.toy_sqrt Sample.toy_mcts Sample.fresh_node = Ok 0.
Proof.
  apply (get_action_unvisited Sample.toy_log Sample.toy_sqrt Sample.toy_mcts
           Sample.fresh_node one one [1 # 2; 1 # 2]%Q 1); reflexivity.
Defined.

Lemma get_action_empty_action_space_witness :
  get_action Sample.toy_log Sample.toy_sqrt Sample.toy_mcts
    (mkNode [] [] (Some zero) 0%nat (Some [Sample.half; Sample.half]))
  = Raise ValueError.
Proof.
  apply (get_action_empty_action_space Sample.toy_log Sample.toy_sqrt
           Sample.toy_mcts
           (mkNode [] [] (Some zero) 0%nat (Some [Sample.half; Sample.half]))
           one one [Sample.half; Sample.half]); reflexivity.
Defined.
